(** * Fun Profile SSO SDK: token lifecycle, logout and debounced sync

    A shallow embedding of [FunProfileClient] (client.ts) and of the types
    of types.ts.  The client is a class of [async] methods over three
    collaborators: a [TokenStorage], the [fetch] transport and the clock.

    - Every method is a value of [prog], a tree of the effects the method
      performs in source order, with [Throw] for a thrown exception and
      [try_catch] for [try { } catch { }].
    - [run] executes one call from start to end against a [World] (token
      store, fields of the client object, clock, event trace) and a
      [Network] oracle that answers the requests.
    - [round] executes several calls that are in flight together, the way the
      JavaScript job queue does: a call runs until it suspends at an [await],
      then the next call runs; [interleave] resumes them in any given order.

    Numbers are [Z] (timestamps are integral milliseconds).  The source
    computes with doubles, whose sums and products of integers are exact as
    long as operands and result are at most 2^53 in magnitude
    ([safe_integer]); a statement about a number the client computes assumes
    that range.  Strings are [string], one character per code unit below
    256, and objects used as dictionaries are [gmap].  The modules
    ./pkce, ./sync-manager, ./constants and ./errors are not among the
    sources: what the client uses of them is a parameter ([Constants]) or is
    modelled from the spec, and says so.  The random draws of [startAuth]
    are arguments of its embedding; [register] is not embedded. *)

From Stdlib Require Import ZArith Lia Ascii.
From stdpp Require Import gmap strings list fin_maps pretty.

Local Open Scope Z_scope.

(** ** Types of types.ts *)

(** [TokenData]: the record kept by the token store. *)
Record TokenData := {
  accessToken : string;
  refreshToken : string;
  expiresAt : Z;
  scope : list string;
}.

Module FunUser.
Record SoulNft := {
  element : string;
  level : Z;
  tokenId : option string;
  mintedAt : option string;
}.

Record UserRewards := {
  pending : Z;
  approved : Z;
  claimed : Z;
  status : string;
}.

Record t := {
  id : string;
  funId : string;
  username : string;
  fullName : option string;
  avatarUrl : option string;
  email : option string;
  walletAddress : option string;
  externalWalletAddress : option string;
  soul : option SoulNft;
  rewards : option UserRewards;
}.
End FunUser.

(** [SyncOptions.mode]. *)
Inductive SyncMode := merge | replace | append.

(** A value stored under a field of a synced object. *)
Inductive Value :=
| VNull
| VBool (b : bool)
| VNum (n : Z)
| VStr (s : string).

(** The data handed to the sync endpoint: category key, then field. *)
Abbreviation SyncData := (gmap string (gmap string Value)).

Record SyncOptions := {
  mode : SyncMode;
  data : SyncData;
  categories : option (list string);
  clientTimestamp : option string;
}.

Module AuthResult.
Record t := {
  accessToken : string;
  refreshToken : string;
  expiresIn : Z;
  scope : string;
  user : option FunUser.t;          (* [this.currentUser!]: null when no profile was cached *)
  isNewUser : option bool;
}.
End AuthResult.

Record SyncResult := {
  success : bool;
  syncedAt : string;
  syncMode : string;
  syncCount : Z;
  categoriesUpdated : list string;
  dataSize : Z;
}.

(** ** The wire format

    [request] returns the parsed JSON body as [Record<string, unknown>] and
    the methods read properties off it.  [Wire.t] is that object seen at the
    types the source reads it at: a property the source guards ([||], [?.],
    [if]) is an [option], with [None] for an absent property; a property the
    source uses unguarded has the type the [TokenData] and [SyncResult]
    declarations give it. *)

Module WireUser.
Record soul_nft_t := {
  soul_element : string;
  soul_level : Z;
  token_id : option string;
  minted_at : option string;
}.
Record rewards_t := {
  pending : Z;
  approved : Z;
  claimed : Z;
  status : string;
}.
Record t := {
  id : string;
  fun_id : string;
  username : string;
  full_name : option string;
  avatar_url : option string;
  email : option string;
  wallet_address : option string;
  external_wallet_address : option string;
  soul_nft : option soul_nft_t;
  rewards : option rewards_t;
}.
End WireUser.

Module Wire.
Record t := {
  (* token endpoint *)
  access_token : string;
  refresh_token : option string;
  expires_in : Z;
  scope : option string;
  user : option WireUser.t;
  is_new_user : option bool;
  (* sync endpoint *)
  success : bool;
  synced_at : string;
  sync_mode : string;
  sync_count : Z;
  categories_updated : list string;
  data_size : Z;
  (* error bodies *)
  error : option string;
  error_description : option string;
  details : option string;
}.

(** The object literal [{}] that [handleError] starts from; only the
    guarded properties of it are ever read. *)
Definition empty : t :=
  {| access_token := ""; refresh_token := None; expires_in := 0; scope := None;
     user := None; is_new_user := None;
     success := false; synced_at := ""; sync_mode := ""; sync_count := 0;
     categories_updated := []; data_size := 0;
     error := None; error_description := None; details := None |}.
End Wire.

(** A [fetch] response: status line, the two headers the client reads, and
    the body as [response.json()] parses it ([None]: the body is not JSON and
    [json()] rejects). *)
Record Response := {
  status : Z;
  content_type : option string;
  retry_after : option string;
  payload : option Wire.t;
}.

(** [response.ok]: the status is in the range 200-299. *)
Definition ok (r : Response) : bool := (200 <=? status r) && (status r <=? 299).

(** The request bodies the client sends, one constructor per object literal. *)
Inductive Body :=
| AuthorizationCodeGrant (code redirect_uri client_id : string)
    (client_secret : option string) (code_verifier : string)
| RefreshTokenGrant (refresh_token client_id : string) (client_secret : option string)
| RevokeBody (token client_id : string)
| SyncBody (sync_mode : SyncMode) (platform_data : SyncData)
    (categories : option (list string)) (client_timestamp : string).

Record RequestOptions := {
  method : option string;
  headers : option (gmap string string);
  body : option Body;
}.

(** What [fetch(url, init)] is called with. *)
Record Request := {
  rq_url : string;
  rq_method : string;
  rq_headers : gmap string string;
  rq_body : option Body;
}.

(** ** Errors

    The classes imported from ./errors.  [FunProfileError] is the base class
    and the five others extend it, so [error instanceof FunProfileError]
    holds of all six.  Anything else that is thrown ([TypeError] of a failed
    [fetch], [SyntaxError] of [json()]) is [Native]. *)
Inductive FunProfileError :=
| BaseError (code message : string) (details : option string)
| TokenExpiredError
| InvalidTokenError (message : option string)
| RateLimitError (retryAfter : option Z)
| ValidationError (message : string) (details : option string)
| NetworkError (message : string).

Inductive Exn :=
| Sdk (e : FunProfileError)
| Native (message : string).

(** ** Constants of ./constants and the client configuration *)

Record Endpoints := {
  authorize : string;
  token : string;
  register : string;
  revoke : string;
  refresh : string;
  verify : string;
  syncData_endpoint : string;
}.

Record Constants := {
  DEFAULT_BASE_URL : string;
  ENDPOINTS : Endpoints;
  DEFAULT_SCOPES : list string;
  TOKEN_REFRESH_BUFFER : Z;
}.

(** [FunProfileConfig], without the storage adapter: the store is the
    [storage] cell of the [World]. *)
Record FunProfileConfig := {
  cfg_clientId : string;
  cfg_clientSecret : option string;
  cfg_redirectUri : string;
  cfg_baseUrl : option string;
  cfg_scopes : option (list string);
  cfg_autoRefresh : option bool;
}.

(** [this.config] after the constructor has filled in the defaults. *)
Record Config := {
  clientId : string;
  clientSecret : option string;
  redirectUri : string;
  baseUrl : string;
  scopes : list string;
  autoRefresh : bool;
}.

(** ** JavaScript operators used by the client *)

(** [s || d] at type string: the empty string is falsy, like [undefined]. *)
Definition or_string (s : option string) (d : string) : string :=
  match s with
  | Some (String c r) => String c r
  | Some EmptyString | None => d
  end.

(** [str.split(sep)] with a one-character separator. *)
Fixpoint split (sep : Ascii.ascii) (s : string) : list string :=
  match s with
  | EmptyString => [EmptyString]
  | String c r =>
      if Ascii.eqb c sep then EmptyString :: split sep r
      else match split sep r with
           | h :: t => String c h :: t
           | [] => [String c EmptyString]
           end
  end.

(** [arr.join(sep)]. *)
Fixpoint join (sep : string) (l : list string) : string :=
  match l with
  | [] => EmptyString
  | [s] => s
  | s :: r => s +:+ sep +:+ join sep r
  end.

(** [hay.includes(needle)]. *)
Fixpoint includes (needle hay : string) : bool :=
  String.prefix needle hay ||
  match hay with
  | EmptyString => false
  | String _ r => includes needle r
  end.

(** [parseInt(s, 10)]: leading white space, an optional sign, then the
    longest run of decimal digits; [None] is [NaN].  The white space of
    JavaScript below code unit 256 is TAB, LF, VT, FF, CR, the space and the
    no-break space; the client applies [parseInt] to a header value, which
    has no code unit above 255.  The result is the integer the digits
    denote, which is the double [parseInt] returns as long as it is at most
    2^53 in magnitude (the double -0 of a header such as "-0" is read as
    0). *)
Definition digit_of (c : Ascii.ascii) : option Z :=
  let n := Z.of_nat (Ascii.nat_of_ascii c) in
  if (48 <=? n) && (n <=? 57) then Some (n - 48) else None.

Fixpoint digits (s : string) (acc : option Z) : option Z :=
  match s with
  | EmptyString => acc
  | String c r =>
      match digit_of c with
      | Some d => digits r (Some (10 * default 0 acc + d))
      | None => acc
      end
  end.

Fixpoint skip_blanks (s : string) : string :=
  match s with
  | String c r =>
      if (Ascii.eqb c " " || Ascii.eqb c "009" || Ascii.eqb c "010"
          || Ascii.eqb c "011" || Ascii.eqb c "012" || Ascii.eqb c "013"
          || Ascii.eqb c "160")%char%bool
      then skip_blanks r else s
  | EmptyString => s
  end.

Definition parseInt (s : string) : option Z :=
  match skip_blanks s with
  | String "-"%char r => Z.opp <$> digits r None
  | String "+"%char r => digits r None
  | t => digits t None
  end.

Definition constructor (K : Constants) (config : FunProfileConfig) : Config :=
  {| clientId := cfg_clientId config;
     clientSecret := cfg_clientSecret config;
     redirectUri := cfg_redirectUri config;
     baseUrl := or_string (cfg_baseUrl config) (DEFAULT_BASE_URL K);
     scopes := default (DEFAULT_SCOPES K) (cfg_scopes config);
     autoRefresh := default true (cfg_autoRefresh config) |}.


(** ** The debounced sync manager object *)

(** Modelled from the spec: the class [DebouncedSyncManager] of
    ./sync-manager, which is not among the sources.  The spec (data model,
    SyncQueueEntry, and section 4.3) gives it a mapping from category key to
    a partial data object and a debounce timer; the interval is the second
    argument of the constructor call in [getSyncManager].  [oid] is the
    identity of the object, the rank of its construction, so that two
    references can be told to be the same instance. *)
Record DebouncedSyncManager := {
  oid : nat;
  debounceMs : Z;
  pending : SyncData;
  timer : option Z;                 (* instant at which the armed timer fires *)
}.

(** ** The world a call runs in

    The token store, the fields of the client object, the verifiers kept by
    ./pkce, the clock and the trace of the calls made on the store and on
    [fetch].  The clock moves while the answer to a request is awaited. *)

Inductive Event :=
| GetTokens                         (* storage.getTokens() was called *)
| SetTokens (tokens : TokenData)    (* storage.setTokens(tokens) was called *)
| ClearTokens                       (* storage.clearTokens() was called *)
| Sent (n : nat) (rq : Request)     (* fetch was called: request number n left *)
| Received (n : nat).               (* the answer to request number n arrived *)

Record World := {
  storage : option TokenData;               (* what the TokenStorage holds *)
  currentUser : option FunUser.t;           (* this.currentUser *)
  syncManager : option DebouncedSyncManager;(* this.syncManager *)
  constructed : nat;                        (* sync managers constructed so far *)
  verifiers : gmap string string;           (* code verifiers kept by ./pkce, by state *)
  clock : Z;                                (* what Date.now() returns *)
  trace : list Event;                       (* newest event first *)
}.

Definition set_storage (v : option TokenData) (w : World) : World :=
  {| storage := v; currentUser := currentUser w; syncManager := syncManager w;
     constructed := constructed w; verifiers := verifiers w; clock := clock w;
     trace := trace w |}.

Definition set_currentUser (v : option FunUser.t) (w : World) : World :=
  {| storage := storage w; currentUser := v; syncManager := syncManager w;
     constructed := constructed w; verifiers := verifiers w; clock := clock w;
     trace := trace w |}.

Definition set_syncManager (v : option DebouncedSyncManager) (w : World) : World :=
  {| storage := storage w; currentUser := currentUser w; syncManager := v;
     constructed := constructed w; verifiers := verifiers w; clock := clock w;
     trace := trace w |}.

Definition set_constructed (v : nat) (w : World) : World :=
  {| storage := storage w; currentUser := currentUser w; syncManager := syncManager w;
     constructed := v; verifiers := verifiers w; clock := clock w;
     trace := trace w |}.

Definition set_verifiers (v : gmap string string) (w : World) : World :=
  {| storage := storage w; currentUser := currentUser w; syncManager := syncManager w;
     constructed := constructed w; verifiers := v; clock := clock w;
     trace := trace w |}.

Definition set_clock (v : Z) (w : World) : World :=
  {| storage := storage w; currentUser := currentUser w; syncManager := syncManager w;
     constructed := constructed w; verifiers := verifiers w; clock := v;
     trace := trace w |}.

Definition log (e : Event) (w : World) : World :=
  {| storage := storage w; currentUser := currentUser w; syncManager := syncManager w;
     constructed := constructed w; verifiers := verifiers w; clock := clock w;
     trace := e :: trace w |}.

(** The requests sent so far, newest first, and their number. *)
Fixpoint requests (t : list Event) : list Request :=
  match t with
  | [] => []
  | Sent _ rq :: r => rq :: requests r
  | _ :: r => requests r
  end.

Definition sent (w : World) : nat := length (requests (trace w)).

(** The calls made on the token store that write to it. *)
Fixpoint store_writes (t : list Event) : list Event :=
  match t with
  | [] => []
  | SetTokens tk :: r => SetTokens tk :: store_writes r
  | ClearTokens :: r => ClearTokens :: store_writes r
  | _ :: r => store_writes r
  end.

(** Requests that have left and whose answer has not arrived yet. *)
Fixpoint in_flight (t : list Event) : Z :=
  match t with
  | [] => 0
  | Sent _ _ :: r => in_flight r + 1
  | Received _ :: r => in_flight r - 1
  | _ :: r => in_flight r
  end.

(** ** Effects and programs *)

(** The effects of a method, in the words of the source.  The ones the
    source awaits are the three [TokenStorage] calls, the answer of [fetch]
    and [response.json()]; the others complete on the spot.  The
    [TokenStorage] is taken at its contract, a cell that is read, written
    and emptied: its calls do not fail. *)
Inductive op : Type -> Type :=
| storage_getTokens : op (option TokenData)
| storage_setTokens (tokens : TokenData) : op unit
| storage_clearTokens : op unit
| fetch_call (rq : Request) : op nat                      (* the request leaves; its number *)
| fetch_answer (n : nat) (rq : Request) : op (Exn + Response)
| json_parsed : op unit                                   (* await response.json() *)
| Date_now : op Z
| read_currentUser : op (option FunUser.t)
| write_currentUser (u : option FunUser.t) : op unit
| read_syncManager : op (option DebouncedSyncManager)
| write_syncManager (m : option DebouncedSyncManager) : op unit
| new_object : op nat                                     (* identity of a fresh sync manager *)
| read_verifiers : op (gmap string string)
| write_verifiers (v : gmap string string) : op unit.

Inductive prog (A : Type) : Type :=
| Ret (a : A)
| Throw (e : Exn)
| Vis {X : Type} (o : op X) (k : X -> prog A).
Arguments Ret {A} a.
Arguments Throw {A} e.
Arguments Vis {A X} o k.

Fixpoint bind {A B} (p : prog A) (f : A -> prog B) : prog B :=
  match p with
  | Ret a => f a
  | Throw e => Throw e
  | Vis o k => Vis o (fun x => bind (k x) f)
  end.

(** [try { p } catch (e) { h e }]. *)
Fixpoint try_catch {A} (p : prog A) (h : Exn -> prog A) : prog A :=
  match p with
  | Ret a => Ret a
  | Throw e => h e
  | Vis o k => Vis o (fun x => try_catch (k x) h)
  end.

Definition call {X} (o : op X) : prog X := Vis o Ret.

#[export] Instance prog_ret : MRet prog := @Ret.
#[export] Instance prog_bind : MBind prog := fun A B f p => bind p f.

(** ** Semantics *)

(** The identity provider and the transport, as the client sees them: the
    answer to request number [n], and the time that passes until it
    arrives.  [inl e]: [fetch] rejects with [e]. *)
Record Reply := {
  latency : Z;
  answer : Exn + Response;
}.

Abbreviation Network := (nat -> Request -> Reply).

(** How a settled call ended: the promise resolved or rejected. *)
Inductive outcome (A : Type) : Type :=
| Resolved (a : A)
| Rejected (e : Exn).
Arguments Resolved {A} a.
Arguments Rejected {A} e.

Definition perform (net : Network) {X} (o : op X) (w : World) : X * World :=
  match o in op X return X * World with
  | storage_getTokens => (storage w, log GetTokens w)
  | storage_setTokens tokens => (tt, set_storage (Some tokens) (log (SetTokens tokens) w))
  | storage_clearTokens => (tt, set_storage None (log ClearTokens w))
  | fetch_call rq => (sent w, log (Sent (sent w) rq) w)
  | fetch_answer n rq =>
      (answer (net n rq), set_clock (clock w + latency (net n rq)) (log (Received n) w))
  | json_parsed => (tt, w)
  | Date_now => (clock w, w)
  | read_currentUser => (currentUser w, w)
  | write_currentUser u => (tt, set_currentUser u w)
  | read_syncManager => (syncManager w, w)
  | write_syncManager m => (tt, set_syncManager m w)
  | new_object => (constructed w, set_constructed (S (constructed w)) w)
  | read_verifiers => (verifiers w, w)
  | write_verifiers v => (tt, set_verifiers v w)
  end.

(** One call, alone, from its start to the moment it settles. *)
Fixpoint run (net : Network) {A} (p : prog A) (w : World) : outcome A * World :=
  match p with
  | Ret a => (Resolved a, w)
  | Throw e => (Rejected e, w)
  | Vis o k => let '(x, w') := perform net o w in run net (k x) w'
  end.

(** *** Calls in flight together

    A call of an [async] method runs on the spot up to its first [await];
    an awaited effect has happened when the call suspends (the store was read
    or written, the request has left), except for the answer of [fetch],
    which the call waits for.  [exec] is that run up to the next suspension
    and [step] resumes a suspended call. *)
Inductive kind := immediate | suspends | blocks.

Definition kind_of {X} (o : op X) : kind :=
  match o with
  | storage_getTokens | storage_setTokens _ | storage_clearTokens | json_parsed => suspends
  | fetch_answer _ _ => blocks
  | _ => immediate
  end.

Inductive task (A : Type) : Type :=
| Ready (p : prog A)                              (* suspended; resumes with p *)
| Blocked {X : Type} (o : op X) (k : X -> prog A) (* waits for the result of o *)
| Done (r : outcome A).
Arguments Ready {A} p.
Arguments Blocked {A X} o k.
Arguments Done {A} r.

Fixpoint exec (net : Network) {A} (p : prog A) (w : World) : task A * World :=
  match p with
  | Ret a => (Done (Resolved a), w)
  | Throw e => (Done (Rejected e), w)
  | Vis o k =>
      match kind_of o with
      | blocks => (Blocked o k, w)
      | suspends => let '(x, w') := perform net o w in (Ready (k x), w')
      | immediate => let '(x, w') := perform net o w in exec net (k x) w'
      end
  end.

Definition step (net : Network) {A} (t : task A) (w : World) : task A * World :=
  match t with
  | Ready p => exec net p w
  | Blocked o k => let '(x, w') := perform net o w in exec net (k x) w'
  | Done r => (Done r, w)
  end.

(** The job queue serves the suspended calls in turn: every call of the
    pool takes one step, first to last. *)
Fixpoint round (net : Network) {A} (pool : list (task A)) (w : World)
  : list (task A) * World :=
  match pool with
  | [] => ([], w)
  | t :: r =>
      let '(t', w') := step net t w in
      let '(r', w'') := round net r w' in
      (t' :: r', w'')
  end.


(** Any other order of resumption: the calls of the pool are resumed in the
    order their indices come in [order]. *)
Definition interleave (net : Network) {A} (order : list nat) (pool : list (task A))
    (w : World) : list (task A) * World :=
  foldl (fun '(pool, w) i =>
           match pool !! i with
           | Some t => let '(t', w') := step net t w in (<[i := t']> pool, w')
           | None => (pool, w)
           end)
        (pool, w) order.

(** ** ./pkce: the verifier kept between [startAuth] and the callback *)

(** Modelled from the spec: [storeCodeVerifier] of ./pkce, which is not
    among the sources; section 4.1, [correlate(verifier, state)], associates
    a verifier with a state value chosen by the caller. *)
Definition storeCodeVerifier (verifier state : string) : prog unit :=
  v ← call read_verifiers;
  call (write_verifiers (<[state := verifier]> v)).

(** Modelled from the spec: [retrieveCodeVerifier] of ./pkce, which is not
    among the sources; section 4.1, [resolve(state) -> verifier | not-found],
    gives the verifier of a state back and allows exactly one successful
    resolution, so the entry is consumed. *)
Definition retrieveCodeVerifier (state : string) : prog (option string) :=
  v ← call read_verifiers;
  match v !! state with
  | Some verifier => call (write_verifiers (delete state v));; Ret (Some verifier)
  | None => Ret None
  end.

(** ** ./sync-manager: the methods of [DebouncedSyncManager] *)

(** Modelled from the spec: the merge of ./sync-manager, which is not among
    the sources; data model, SyncQueueEntry: entries of one category
    shallow-merge into one, most-recent-field-wins, that is
    [{...older, ...newer}]. *)
Definition shallow_merge (older newer : gmap string Value) : gmap string Value :=
  newer ∪ older.

(** Modelled from the spec: [queue] of ./sync-manager, which is not among
    the sources; section 4.3: [queue(category, partialData)] merges
    [partialData] into the pending entry for [category] (field-level,
    last-write-wins) and (re)starts the debounce timer.  [now] is the instant
    of the call. *)
Definition queue (now : Z) (category : string) (partialData : gmap string Value)
    (m : DebouncedSyncManager) : DebouncedSyncManager :=
  {| oid := oid m; debounceMs := debounceMs m;
     pending := <[category := shallow_merge (default ∅ (pending m !! category)) partialData]>
                  (pending m);
     timer := Some (now + debounceMs m) |}.

(** Modelled from the spec: [hasPendingData] of ./sync-manager, which is
    not among the sources; section 4.3: true iff the queue is non-empty. *)
Definition hasPendingData (m : DebouncedSyncManager) : bool :=
  negb (bool_decide (pending m = ∅)).

(** Modelled from the spec: [clear] of ./sync-manager, which is not among
    the sources; section 4.3: discards pending data without sending it and
    cancels any pending timer. *)
Definition clear (m : DebouncedSyncManager) : DebouncedSyncManager :=
  {| oid := oid m; debounceMs := debounceMs m; pending := ∅; timer := None |}.

(** Modelled from the spec: the failure policy of ./sync-manager, which is
    not among the sources; section 4.3: when the write of a flush fails the
    queued data is restored to pending state.  It goes back under what was
    queued since. *)
Definition restore (sent_data : SyncData) (m : DebouncedSyncManager) : DebouncedSyncManager :=
  {| oid := oid m; debounceMs := debounceMs m;
     pending := union_with (fun newer older => Some (shallow_merge older newer))
                  (pending m) sent_data;
     timer := timer m |}.

(** Modelled from the spec: the result of [flush], section 4.3. *)
Inductive FlushResult := NothingToSync | Synced.

(** Modelled from the spec: [flush] of ./sync-manager, which is not among
    the sources; section 4.3: with nothing pending it returns a "nothing to
    sync" result without a network call; otherwise it sends the full pending
    queue in a single write and clears the queue, later [queue] calls
    accumulating into the next flush; a failed write restores the data and
    the failure reaches the caller.  The manager is the one held in
    [this.syncManager] and [callback] the function it was constructed with. *)
Definition flush (callback : SyncData -> prog unit) : prog FlushResult :=
  this ← call read_syncManager;
  match this with
  | None => Ret NothingToSync
  | Some m =>
      if hasPendingData m then
        call (write_syncManager (Some (clear m)));;
        try_catch
          (callback (pending m);; Ret Synced)
          (fun e =>
             this' ← call read_syncManager;
             call (write_syncManager (restore (pending m) <$> this'));;
             Throw e)
      else Ret NothingToSync
  end.

(** ** client.ts: [FunProfileClient] *)

Section Client.

Variable K : Constants.
Variable config : Config.              (* this.config *)
Variable toISOString : Z -> string.    (* new Date(ms).toISOString() *)

Definition fetch (rq : Request) : prog Response :=
  n ← call (fetch_call rq);
  r ← call (fetch_answer n rq);
  match r with
  | inl e => Throw e
  | inr response => Ret response
  end.

(** [response.json()]. *)
Definition json (response : Response) : prog Wire.t :=
  call json_parsed;;
  match payload response with
  | Some j => Ret j
  | None => Throw (Native "Unexpected end of JSON input")
  end.

Definition handleError (response : Response) : prog unit :=
  let contentType := content_type response in
  errorData ←
    (if default false (includes "application/json" <$> contentType)
     then try_catch (json response) (fun _ => Ret Wire.empty)
     else Ret Wire.empty);
  match status response with
  | 401 => Throw (Sdk (InvalidTokenError (Wire.error_description errorData)))
  | 429 => Throw (Sdk (RateLimitError (parseInt (or_string (retry_after response) "60"))))
  | 400 =>
      Throw (Sdk (ValidationError
                    (or_string (Wire.error_description errorData) "Validation failed")
                    (Wire.details errorData)))
  | _ =>
      Throw (Sdk (BaseError
                    (or_string (Wire.error errorData) "unknown_error")
                    (or_string (Wire.error_description errorData)
                       ("Request failed with status " +:+ pretty (status response)))
                    (Wire.details errorData)))
  end.

Definition request (endpoint : string) (options : RequestOptions) : prog Wire.t :=
  let url := baseUrl config +:+ endpoint in
  let headers := default ∅ (headers options) ∪ {["Content-Type" := "application/json"]} in
  try_catch
    (response ← fetch {| rq_url := url;
                         rq_method := or_string (method options) "GET";
                         rq_headers := headers;
                         rq_body := body options |};
     (if negb (ok response) then handleError response else Ret tt);;
     json response)
    (fun error =>
       match error with
       | Sdk e => Throw (Sdk e)
       | Native message => Throw (Sdk (NetworkError message))
       end).

Definition refreshTokens : prog TokenData :=
  tokens ← call storage_getTokens;
  match tokens with
  | None => Throw (Sdk (InvalidTokenError (Some "No tokens available")))
  | Some tokens =>
      response ← request (refresh (ENDPOINTS K))
        {| method := Some "POST"; headers := None;
           body := Some (RefreshTokenGrant (refreshToken tokens) (clientId config)
                           (clientSecret config)) |};
      now ← call Date_now;
      let newTokens :=
        {| accessToken := Wire.access_token response;
           refreshToken := or_string (Wire.refresh_token response) (refreshToken tokens);
           expiresAt := now + Wire.expires_in response * 1000;
           scope := match Wire.scope response with
                    | Some s => split " " s
                    | None => scope tokens
                    end |} in
      call (storage_setTokens newTokens);;
      Ret newTokens
  end.

Definition getAccessToken : prog (option string) :=
  tokens ← call storage_getTokens;
  match tokens with
  | None => Ret None
  | Some tokens =>
      now ← call Date_now;
      if now >=? expiresAt tokens - TOKEN_REFRESH_BUFFER K then
        if autoRefresh config then
          newTokens ← refreshTokens;
          Ret (Some (accessToken newTokens))
        else Throw (Sdk TokenExpiredError)
      else Ret (Some (accessToken tokens))
  end.

Definition getTokens : prog (option TokenData) := call storage_getTokens.

Definition isAuthenticated : prog bool :=
  tokens ← call storage_getTokens;
  match tokens with
  | None => Ret false
  | Some tokens =>
      now ← call Date_now;
      if now >=? expiresAt tokens - TOKEN_REFRESH_BUFFER K then
        if autoRefresh config then
          try_catch (refreshTokens;; Ret true) (fun _ => Ret false)
        else Ret false
      else Ret true
  end.

Definition authenticatedRequest (endpoint : string) (options : RequestOptions)
  : prog Wire.t :=
  accessToken ← getAccessToken;
  match accessToken with
  | Some (String c r) =>
      request endpoint
        {| method := method options;
           headers := Some (<["Authorization" := "Bearer " +:+ String c r]>
                              (default ∅ (headers options)));
           body := body options |}
  | Some EmptyString | None => Throw (Sdk (InvalidTokenError (Some "Not authenticated")))
  end.

Definition transformUser (data : WireUser.t) : FunUser.t :=
  {| FunUser.id := WireUser.id data;
     FunUser.funId := WireUser.fun_id data;
     FunUser.username := WireUser.username data;
     FunUser.fullName := WireUser.full_name data;
     FunUser.avatarUrl := WireUser.avatar_url data;
     FunUser.email := WireUser.email data;
     FunUser.walletAddress := WireUser.wallet_address data;
     FunUser.externalWalletAddress := WireUser.external_wallet_address data;
     FunUser.soul :=
       (fun n => {| FunUser.element := WireUser.soul_element n;
                    FunUser.level := WireUser.soul_level n;
                    FunUser.tokenId := WireUser.token_id n;
                    FunUser.mintedAt := WireUser.minted_at n |})
         <$> WireUser.soul_nft data;
     FunUser.rewards :=
       (fun r => {| FunUser.pending := WireUser.pending r;
                    FunUser.approved := WireUser.approved r;
                    FunUser.claimed := WireUser.claimed r;
                    FunUser.status := WireUser.status r |})
         <$> WireUser.rewards data |}.

Definition transformAuthResult (response : Wire.t) (tokens : TokenData)
  : prog AuthResult.t :=
  now ← call Date_now;
  user ← call read_currentUser;
  Ret {| AuthResult.accessToken := accessToken tokens;
         AuthResult.refreshToken := refreshToken tokens;
         AuthResult.expiresIn := (expiresAt tokens - now) / 1000;
         AuthResult.scope := join " " (scope tokens);
         AuthResult.user := user;
         AuthResult.isNewUser := Wire.is_new_user response |}.

(** [response.refresh_token as string]: the cast does not check; for an
    absent property the model stores the empty string, which is falsy like
    the [undefined] the record would hold. *)
Definition handleTokenResponse (response : Wire.t) : prog AuthResult.t :=
  now ← call Date_now;
  let tokens :=
    {| accessToken := Wire.access_token response;
       refreshToken := default "" (Wire.refresh_token response);
       expiresAt := now + Wire.expires_in response * 1000;
       scope := split " " (or_string (Wire.scope response) "") |} in
  call (storage_setTokens tokens);;
  match Wire.user response with
  | Some u => call (write_currentUser (Some (transformUser u)))
  | None => Ret tt
  end;;
  transformAuthResult response tokens.

Definition handleCallback (code state : string) : prog AuthResult.t :=
  codeVerifier ← retrieveCodeVerifier state;
  match codeVerifier with
  | Some (String c r) =>
      response ← request (token (ENDPOINTS K))
        {| method := Some "POST"; headers := None;
           body := Some (AuthorizationCodeGrant code (redirectUri config) (clientId config)
                           (clientSecret config) (String c r)) |};
      handleTokenResponse response
  | Some EmptyString | None =>
      Throw (Sdk (ValidationError "Invalid state parameter - possible CSRF attack" None))
  end.

Definition syncData (options : SyncOptions) : prog SyncResult :=
  client_timestamp ←
    match clientTimestamp options with
    | Some (String c r) => Ret (String c r)
    | Some EmptyString | None => now ← call Date_now; Ret (toISOString now)
    end;
  response ← authenticatedRequest (syncData_endpoint (ENDPOINTS K))
    {| method := Some "POST"; headers := None;
       body := Some (SyncBody (mode options) (data options) (categories options)
                       client_timestamp) |};
  Ret {| success := Wire.success response;
         syncedAt := Wire.synced_at response;
         syncMode := Wire.sync_mode response;
         syncCount := Wire.sync_count response;
         categoriesUpdated := Wire.categories_updated response;
         dataSize := Wire.data_size response |}.

Definition getUser : prog FunUser.t :=
  response ← authenticatedRequest (verify (ENDPOINTS K))
    {| method := Some "GET"; headers := None; body := None |};
  match Wire.user response with
  | Some u =>
      call (write_currentUser (Some (transformUser u)));;
      Ret (transformUser u)
  | None => Throw (Native "Cannot read properties of undefined")
  end.

Definition getCachedUser : prog (option FunUser.t) := call read_currentUser.

(** The function [getSyncManager] hands to the manager it constructs. *)
Definition sync_callback (data : SyncData) : prog unit :=
  now ← call Date_now;
  syncData {| mode := merge; data := data; categories := None;
              clientTimestamp := Some (toISOString now) |};;
  Ret tt.

(** [getSyncManager(debounceMs = 3000)]; [None] is a call without argument. *)
Definition getSyncManager (debounceMs : option Z) : prog DebouncedSyncManager :=
  this_syncManager ← call read_syncManager;
  match this_syncManager with
  | None =>
      o ← call new_object;
      let m := {| oid := o; debounceMs := default 3000 debounceMs;
                  pending := ∅; timer := None |} in
      call (write_syncManager (Some m));;
      Ret m
  | Some m => Ret m
  end.

Definition logout : prog unit :=
  this_syncManager ← call read_syncManager;
  (if default false (hasPendingData <$> this_syncManager)
   then try_catch (flush sync_callback;; Ret tt) (fun _ => Ret tt)
   else Ret tt);;
  tokens ← call storage_getTokens;
  match tokens with
  | Some tokens =>
      try_catch
        (request (revoke (ENDPOINTS K))
           {| method := Some "POST"; headers := None;
              body := Some (RevokeBody (accessToken tokens) (clientId config)) |};;
         Ret tt)
        (fun _ => Ret tt)
  | None => Ret tt
  end;;
  call storage_clearTokens;;
  call (write_currentUser None);;
  this_syncManager ← call read_syncManager;
  call (write_syncManager (clear <$> this_syncManager)).

End Client.

(** ** client.ts: [generateState] and [startAuth] *)

(** [s.padStart(n, c)] with a one-character filler. *)
Definition padStart (n : nat) (c : Ascii.ascii) (s : string) : string :=
  foldr String s (replicate (n - String.length s) c).

(** The digit of [d] in base 16, for [d] below 16. *)
Definition hex_digit (d : N) : Ascii.ascii :=
  default "0"%char (String.get (N.to_nat d) "0123456789abcdef").

(** [x.toString(16)] for an element [x] of a [Uint8Array], which is below
    256: one digit below 16 and two from there on. *)
Definition toString16 (x : N) : string :=
  if (x <? 16)%N then String (hex_digit x) ""
  else String (hex_digit (x / 16)) (String (hex_digit (x mod 16)) "").

(** [generateState], given the bytes [crypto.getRandomValues] has written
    into the array. *)
Definition generateState (array : list Byte.byte) : string :=
  join "" ((fun x => padStart 2 "0" (toString16 (Byte.to_N x))) <$> array).

(** [options.prompt]. *)
Inductive Prompt := login | consent | none.

Definition prompt_string (p : Prompt) : string :=
  match p with
  | login => "login"
  | consent => "consent"
  | none => "none"
  end.

(** [params.set(name, value)] on the list of pairs of a [URLSearchParams]:
    the first pair of that name takes the value and the others of that name
    go; without one the pair is appended. *)
Fixpoint params_set (name value : string) (params : list (string * string))
  : list (string * string) :=
  match params with
  | [] => [(name, value)]
  | (n, v) :: r =>
      if decide (n = name)
      then (name, value) :: filter (fun p => p.1 <> name) r
      else (n, v) :: params_set name value r
  end.

Section Authorization.

Variable K : Constants.
Variable config : Config.
Variable generateCodeChallenge : string -> string.    (* of ./pkce: the S256 transform *)
Variable toString : list (string * string) -> string. (* URLSearchParams.prototype.toString *)

(** The parameters [startAuth] puts in the query. *)
Definition authorization_params (state codeChallenge : string) (prompt : option Prompt)
  : list (string * string) :=
  let params :=
    [ ("response_type", "code");
      ("client_id", clientId config);
      ("redirect_uri", redirectUri config);
      ("scope", join " " (scopes config));
      ("state", state);
      ("code_challenge", codeChallenge);
      ("code_challenge_method", "S256") ] in
  match prompt with
  | Some p => params_set "prompt" (prompt_string p) params
  | None => params
  end.

(** [startAuth(options)].  [array] is what [crypto.getRandomValues] writes
    for the state and [codeVerifier] what [generateCodeVerifier] of ./pkce
    returns: the two random draws of the call. *)
Definition startAuth (array : list Byte.byte) (codeVerifier : string)
    (prompt : option Prompt) : prog string :=
  let state := generateState array in
  let codeChallenge := generateCodeChallenge codeVerifier in
  storeCodeVerifier codeVerifier state;;
  Ret (baseUrl config +:+ authorize (ENDPOINTS K) +:+ "?"
       +:+ toString (authorization_params state codeChallenge prompt)).

End Authorization.


(** * Notions used in the statements *)

(** A call running alone settles after finitely many resumptions, with the
    result and the world that [run] computes: [settle] resumes it [n] times. *)
Fixpoint settle (net : Network) {A} (n : nat) (t : task A) (w : World)
  : task A * World :=
  match n with
  | O => (t, w)
  | S m => let '(t', w') := step net t w in settle net m t' w'
  end.

(** The world once request [rq] has left and its answer has come back. *)
Definition after_fetch (net : Network) (rq : Request) (w : World) : World :=
  set_clock (clock w + latency (net (sent w) rq))
    (log (Received (sent w)) (log (Sent (sent w) rq) w)).

(** What [request] hands to [fetch]. *)
Definition request_of (config : Config) (endpoint : string) (options : RequestOptions)
  : Request :=
  {| rq_url := baseUrl config +:+ endpoint;
     rq_method := or_string (method options) "GET";
     rq_headers := default ∅ (headers options) ∪ {["Content-Type" := "application/json"]};
     rq_body := body options |}.

(** The request [refreshTokens] sends when the store holds [tokens]. *)
Definition refresh_request (K : Constants) (config : Config) (tokens : TokenData)
  : Request :=
  request_of config (refresh (ENDPOINTS K))
    {| method := Some "POST"; headers := None;
       body := Some (RefreshTokenGrant (refreshToken tokens) (clientId config)
                       (clientSecret config)) |}.

(** The record [refreshTokens] stores when the store held [tokens], the
    server answered [response] and the clock read [now]. *)
Definition refreshed (tokens : TokenData) (response : Wire.t) (now : Z) : TokenData :=
  {| accessToken := Wire.access_token response;
     refreshToken := or_string (Wire.refresh_token response) (refreshToken tokens);
     expiresAt := now + Wire.expires_in response * 1000;
     scope := match Wire.scope response with
              | Some s => split " " s
              | None => scope tokens
              end |}.

(** The stored record is stale at instant [now]. *)
Definition stale (K : Constants) (tokens : TokenData) (now : Z) : Prop :=
  expiresAt tokens - TOKEN_REFRESH_BUFFER K <= now.

(** ** Sequences of calls *)


(** One [queue(category, data)] call, made at instant [at_time]. *)
Record QueueCall := {
  at_time : Z;
  category : string;
  partial : gmap string Value;
}.

(** The manager after the calls of [calls], first to last, with no flush in
    between. *)
Definition queue_all (calls : list QueueCall) (m : DebouncedSyncManager)
  : DebouncedSyncManager :=
  foldl (fun m q => queue (at_time q) (category q) (partial q) m) m calls.

(** The value the latest call for category [c] that wrote field [f] gave to
    it, if any call did ([calls] is oldest first). *)
Fixpoint last_write (c f : string) (calls : list QueueCall) : option Value :=
  match calls with
  | [] => None
  | q :: r =>
      match last_write c f r with
      | Some v => Some v
      | None => if decide (category q = c) then partial q !! f else None
      end
  end.

(** The calls of [calls] made for category [c], in their order. *)
Definition calls_for (c : string) (calls : list QueueCall) : list QueueCall :=
  filter (fun q => category q = c) calls.

(** ** Sample values

    ./constants is not among the sources: the properties hold for every
    value of the constants, and the examples run with these. *)
Definition sample_constants : Constants :=
  {| DEFAULT_BASE_URL := "https://fun.rich";
     ENDPOINTS := {| authorize := "/oauth/authorize"; token := "/oauth/token";
                     register := "/oauth/register"; revoke := "/oauth/revoke";
                     refresh := "/oauth/refresh"; verify := "/oauth/verify";
                     syncData_endpoint := "/sync" |};
     DEFAULT_SCOPES := ["profile"];
     TOKEN_REFRESH_BUFFER := 60000 |}.

Definition sample_config : Config :=
  constructor sample_constants
    {| cfg_clientId := "fun_farm_production"; cfg_clientSecret := None;
       cfg_redirectUri := "https://farm.fun.rich/auth/callback";
       cfg_baseUrl := None; cfg_scopes := Some ["profile"; "email"];
       cfg_autoRefresh := None |}.

(** A record that expires at instant 3 600 000. *)
Definition sample_record : TokenData :=
  {| accessToken := "a0"; refreshToken := "r0"; expiresAt := 3600000;
     scope := ["profile"; "email"] |}.

(** A client that has just been constructed, at instant [now], over a store
    that holds [store]. *)
Definition world_at (now : Z) (store : option TokenData) : World :=
  {| storage := store; currentUser := None; syncManager := None; constructed := 0;
     verifiers := ∅; clock := now; trace := [] |}.

(** A token response with access token [a] and refresh token [r]. *)
Definition token_response (a : string) (r : option string) : Wire.t :=
  {| Wire.access_token := a; Wire.refresh_token := r; Wire.expires_in := 3600;
     Wire.scope := None; Wire.user := None; Wire.is_new_user := None;
     Wire.success := false; Wire.synced_at := ""; Wire.sync_mode := "";
     Wire.sync_count := 0; Wire.categories_updated := []; Wire.data_size := 0;
     Wire.error := None; Wire.error_description := None; Wire.details := None |}.

(** Every request is answered with status [code] and JSON body [j] after 10 ms. *)
Definition answering (code : Z) (j : Wire.t) : Network :=
  fun _ _ => {| latency := 10;
                answer := inr {| status := code;
                                 content_type := Some "application/json";
                                 retry_after := None; payload := Some j |} |}.

(** No request gets through: [fetch] rejects. *)
Definition network_down : Network :=
  fun _ _ => {| latency := 10; answer := inl (Native "Failed to fetch") |}.

(** A server that rotates: request number [n] is answered with tokens named
    after [n], "a1" and "r1" for the first request. *)
Definition rotating_response (n : nat) : Wire.t :=
  token_response ("a" +:+ pretty (Z.of_nat (S n))) (Some ("r" +:+ pretty (Z.of_nat (S n)))).

Definition rotating : Network :=
  fun n _ => {| latency := 10;
                answer := inr {| status := 200;
                                 content_type := Some "application/json";
                                 retry_after := None;
                                 payload := Some (rotating_response n) |} |}.

(** A manager constructed with the default interval, nothing queued. *)
Definition sample_manager : DebouncedSyncManager :=
  {| oid := 0; debounceMs := 3000; pending := ∅; timer := None |}.

(** [queue('farm_stats', {gold: 100})] then
    [queue('farm_stats', {gold: 150, wood: 5})], one second apart. *)
Definition sample_calls : list QueueCall :=
  [ {| at_time := 0; category := "farm_stats"; partial := {["gold" := VNum 100]} |};
    {| at_time := 1000; category := "farm_stats";
       partial := {["gold" := VNum 150; "wood" := VNum 5]} |} ].

(** A signed-in client whose sync manager has data pending. *)
Definition signed_in_with_pending : World :=
  {| storage := Some sample_record; currentUser := None;
     syncManager := Some (queue_all sample_calls sample_manager); constructed := 1;
     verifiers := ∅; clock := 2000; trace := [] |}.

(** The two concurrent calls of the examples. *)
Definition two_calls : list (task (option string)) :=
  replicate 2 (Ready (getAccessToken sample_constants sample_config)).

(** ** Calls in flight together: the stages of a refreshing call *)



Section Stages.

Variable K : Constants.
Variable config : Config.
Variable net : Network.
Variable tokens : TokenData.          (* the stale record the calls read *)
Variable responses : nat -> Wire.t.   (* the body of the answer to request number n *)








End Stages.

(** ** What a method may do *)

(** Every effect of the program satisfies [P]. *)
Inductive only (P : forall X, op X -> Prop) {A : Type} : prog A -> Prop :=
| only_Ret (a : A) : only P (Ret a)
| only_Throw (e : Exn) : only P (Throw e)
| only_Vis (X : Type) (o : op X) (k : X -> prog A) :
    P X o -> (forall x, only P (k x)) -> only P (Vis o k).

(** The effect is no call of [clearTokens]. *)
Definition keeps_record (X : Type) (o : op X) : Prop :=
  match o with
  | storage_clearTokens => False
  | _ => True
  end.

(** The effect reads the token store or writes a record to it, sends or
    awaits a request, parses a body or reads the clock: it does not empty
    the store and leaves the fields of the client object and the verifiers
    alone. *)
Definition token_effect (X : Type) (o : op X) : Prop :=
  match o with
  | storage_getTokens | storage_setTokens _
  | fetch_call _ | fetch_answer _ _ | json_parsed | Date_now => True
  | _ => False
  end.

(** The effect sends no request and awaits none. *)
Definition offline (X : Type) (o : op X) : Prop :=
  match o with
  | fetch_call _ | fetch_answer _ _ => False
  | _ => True
  end.

(** A character of a state: a decimal digit or a letter from [a] to [f]. *)
Definition is_hex (c : Ascii.ascii) : bool :=
  let n := Ascii.N_of_ascii c in
  ((48 <=? n) && (n <=? 57) || (97 <=? n) && (n <=? 102))%N.

Fixpoint all_hex (s : string) : bool :=
  match s with
  | EmptyString => true
  | String c r => is_hex c && all_hex r
  end.

(** The value of a hexadecimal digit. *)
Definition unhex (c : Ascii.ascii) : option N :=
  let n := Ascii.N_of_ascii c in
  if ((48 <=? n) && (n <=? 57))%N then Some (n - 48)%N
  else if ((97 <=? n) && (n <=? 102))%N then Some (n - 87)%N
  else None.

(** Reading a state back: two digits give a byte. *)
Fixpoint parse_state (s : string) : option (list Byte.byte) :=
  match s with
  | EmptyString => Some []
  | String c1 (String c2 r) =>
      d1 ← unhex c1;
      d2 ← unhex c2;
      b ← Byte.of_N (16 * d1 + d2);
      l ← parse_state r;
      Some (b :: l)
  | String _ EmptyString => None
  end.

(** The integers a double holds exactly: the sums and products of the
    source over them, when the result is one of them, are those of [Z]. *)
Definition safe_integer (n : Z) : Prop := - 2 ^ 53 <= n <= 2 ^ 53.

(** The object [handleError] reads the error fields from: the parsed body
    when the content type announces JSON and the body parses, [{}]
    otherwise. *)
Definition error_data (response : Response) : Wire.t :=
  if default false (includes "application/json" <$> content_type response)
  then default Wire.empty (payload response)
  else Wire.empty.

(** The error [handleError] throws for a response. *)
Definition thrown_for (response : Response) : FunProfileError :=
  match status response with
  | 401 => InvalidTokenError (Wire.error_description (error_data response))
  | 429 => RateLimitError (parseInt (or_string (retry_after response) "60"))
  | 400 => ValidationError
             (or_string (Wire.error_description (error_data response)) "Validation failed")
             (Wire.details (error_data response))
  | _ => BaseError
           (or_string (Wire.error (error_data response)) "unknown_error")
           (or_string (Wire.error_description (error_data response))
              ("Request failed with status " +:+ pretty (status response)))
           (Wire.details (error_data response))
  end.

(** The options [authenticatedRequest] passes on: the caller's, with the
    [Authorization] header set to the bearer token. *)
Definition with_bearer (accessToken : string) (options : RequestOptions) : RequestOptions :=
  {| method := method options;
     headers := Some (<["Authorization" := "Bearer " +:+ accessToken]>
                        (default ∅ (headers options)));
     body := body options |}.

(** The request [handleCallback] sends to exchange [code], with the
    verifier it has retrieved. *)
Definition token_request (K : Constants) (config : Config) (code codeVerifier : string)
  : Request :=
  request_of config (token (ENDPOINTS K))
    {| method := Some "POST"; headers := None;
       body := Some (AuthorizationCodeGrant code (redirectUri config) (clientId config)
                       (clientSecret config) codeVerifier) |}.

(** The request [logout] sends to revoke the access token of [tokens]. *)
Definition revoke_request (K : Constants) (config : Config) (tokens : TokenData) : Request :=
  request_of config (revoke (ENDPOINTS K))
    {| method := Some "POST"; headers := None;
       body := Some (RevokeBody (accessToken tokens) (clientId config)) |}.

(** ** More sample values *)

Definition no_options : RequestOptions :=
  {| method := None; headers := None; body := None |}.

(** Every request is answered with [response] after 10 ms. *)
Definition answering_with (response : Response) : Network :=
  fun _ _ => {| latency := 10; answer := inr response |}.



(** A throttling answer that names no delay. *)
Definition too_many_requests : Response :=
  {| status := 429; content_type := None; retry_after := None; payload := None |}.

(** An error page of a gateway: status [code], an HTML body. *)
Definition error_page (code : Z) : Response :=
  {| status := code; content_type := Some "text/html"; retry_after := None;
     payload := None |}.



(** The profile of a user, as the server sends it. *)
Definition sample_wire_user : WireUser.t :=
  {| WireUser.id := "u1"; WireUser.fun_id := "fun_1"; WireUser.username := "farmer";
     WireUser.full_name := None; WireUser.avatar_url := None; WireUser.email := None;
     WireUser.wallet_address := None; WireUser.external_wallet_address := None;
     WireUser.soul_nft := None; WireUser.rewards := None |}.

(** A verify response, with or without the user. *)
Definition verify_response (user : option WireUser.t) : Wire.t :=
  {| Wire.access_token := ""; Wire.refresh_token := None; Wire.expires_in := 0;
     Wire.scope := None; Wire.user := user; Wire.is_new_user := None;
     Wire.success := true; Wire.synced_at := ""; Wire.sync_mode := "";
     Wire.sync_count := 0; Wire.categories_updated := []; Wire.data_size := 0;
     Wire.error := None; Wire.error_description := None; Wire.details := None |}.

(** A record with an empty access token. *)
Definition blank_record : TokenData :=
  {| accessToken := ""; refreshToken := "r0"; expiresAt := 3600000; scope := [] |}.



(** * Properties *)

(** ** The semantics of sequencing and of [try]/[catch] *)

Lemma run_bind net {A B} (p : prog A) (f : A -> prog B) w :
  run net (p ≫= f) w =
  match run net p w with
  | (Resolved a, w') => run net (f a) w'
  | (Rejected e, w') => (Rejected e, w')
  end.
Proof.
  unfold mbind, prog_bind. revert w.
  induction p as [a|e|X o k IH]; intros w; simpl; try reflexivity.
  destruct (perform net o w) as [x w']. apply IH.
Qed.

Lemma run_try_catch net {A} (p : prog A) (h : Exn -> prog A) w :
  run net (try_catch p h) w =
  match run net p w with
  | (Resolved a, w') => (Resolved a, w')
  | (Rejected e, w') => run net (h e) w'
  end.
Proof.
  revert w. induction p as [a|e|X o k IH]; intros w; simpl; try reflexivity.
  destruct (perform net o w) as [x w']. apply IH.
Qed.

(** [try { await p } catch { }]: whatever [p] does, the block completes. *)
Lemma run_swallow net (p : prog unit) w :
  run net (try_catch p (fun _ => Ret tt)) w = (Resolved tt, (run net p w).2).
Proof.
  rewrite run_try_catch. destruct (run net p w) as [[[]|e] w']; reflexivity.
Qed.

Lemma settle_run net {A} (p : prog A) w :
  exists n, settle net n (Ready p) w = (Done (run net p w).1, (run net p w).2).
Proof.
  assert (Hexec : exists n, (let '(t, w') := exec net p w in settle net n t w')
                            = (Done (run net p w).1, (run net p w).2)).
  { revert w. induction p as [a|e|X o k IH]; intros w.
    - exists O. reflexivity.
    - exists O. reflexivity.
    - simpl. destruct (kind_of o) eqn:Hk; destruct (perform net o w) as [x w'] eqn:Hp.
      + apply IH.
      + destruct (IH x w') as [n Hn]. exists (S n). exact Hn.
      + destruct (IH x w') as [n Hn]. exists (S n). simpl. rewrite Hp. exact Hn. }
  destruct Hexec as [n Hn]. exists (S n). exact Hn.
Qed.

(** ** The transport *)

Section Transport.

Variable K : Constants.
Variable config : Config.
Variable net : Network.

Lemma run_fetch rq w :
  run net (fetch rq) w =
  (match answer (net (sent w) rq) with
   | inl e => Rejected e
   | inr response => Resolved response
   end, after_fetch net rq w).
Proof. unfold fetch. cbn. destruct (answer _); reflexivity. Qed.

Lemma run_json response w :
  run net (json response) w =
  (match payload response with
   | Some j => Resolved j
   | None => Rejected (Native "Unexpected end of JSON input")
   end, w).
Proof. unfold json. cbn. destruct (payload response); reflexivity. Qed.

(** [handleError] never returns: it throws one of the SDK's errors. *)
Lemma run_handleError response w :
  exists e, run net (handleError response) w = (Rejected (Sdk e), w).
Proof.
  unfold handleError. rewrite run_bind.
  assert (exists d,
    run net (if default false (includes "application/json" <$> content_type response)
             then try_catch (json response) (fun _ => Ret Wire.empty)
             else Ret Wire.empty) w = (Resolved d, w)) as [d ->].
  { destruct (default false _); [|eexists; reflexivity].
    rewrite run_try_catch, run_json. destruct (payload response); eexists; reflexivity. }
  repeat match goal with |- context [match ?x with _ => _ end] => destruct x end;
    eexists; reflexivity.
Qed.

(** Whatever the answer, [request] sends one request and touches nothing but
    the clock and the trace. *)
Lemma run_request_world endpoint options w :
  (run net (request config endpoint options) w).2
  = after_fetch net (request_of config endpoint options) w.
Proof.
  unfold request. fold (request_of config endpoint options).
  rewrite run_try_catch, run_bind, run_fetch.
  destruct (answer _) as [[e|m]|response]; [reflexivity..|].
  rewrite run_bind. destruct (ok response); simpl negb; cbv iota.
  - change (run net (Ret tt) ?w) with (Resolved tt, w). cbv iota beta.
    rewrite run_json. destruct (payload response); reflexivity.
  - destruct (run_handleError response (after_fetch net (request_of config endpoint options) w))
      as [e ->]. reflexivity.
Qed.

Lemma run_request_ok endpoint options w response j :
  answer (net (sent w) (request_of config endpoint options)) = inr response ->
  ok response = true ->
  payload response = Some j ->
  run net (request config endpoint options) w
  = (Resolved j, after_fetch net (request_of config endpoint options) w).
Proof.
  intros Ha Hok Hj. unfold request. fold (request_of config endpoint options).
  rewrite run_try_catch, run_bind, run_fetch, Ha, run_bind, Hok. simpl negb. cbv iota.
  change (run net (Ret tt) ?w) with (Resolved tt, w). cbv iota beta.
  rewrite run_json, Hj. reflexivity.
Qed.

(** [handleError] throws [thrown_for] and changes nothing. *)
Lemma run_handleError_thrown response w :
  run net (handleError response) w = (Rejected (Sdk (thrown_for response)), w).
Proof.
  unfold handleError, thrown_for, error_data. rewrite run_bind.
  assert (run net (if default false (includes "application/json" <$> content_type response)
             then try_catch (json response) (fun _ => Ret Wire.empty)
             else Ret Wire.empty) w
          = (Resolved (if default false (includes "application/json" <$> content_type response)
                       then default Wire.empty (payload response) else Wire.empty), w)) as ->.
  { destruct (default false _); [|reflexivity].
    rewrite run_try_catch, run_json. destruct (payload response); reflexivity. }
  repeat match goal with |- context [match ?x with _ => _ end] => destruct x end; reflexivity.
Qed.

(** [request] passes on what [handleError] throws for an answer that is not
    ok. *)
Lemma run_request_not_ok endpoint options w response :
  answer (net (sent w) (request_of config endpoint options)) = inr response ->
  ok response = false ->
  run net (request config endpoint options) w
  = (Rejected (Sdk (thrown_for response)),
     after_fetch net (request_of config endpoint options) w).
Proof.
  intros Ha Hok. unfold request. fold (request_of config endpoint options).
  rewrite run_try_catch, run_bind, run_fetch, Ha, run_bind, Hok. simpl negb. cbv iota.
  rewrite run_handleError_thrown. reflexivity.
Qed.

Lemma not_ok_of_status response :
  status response = 401 \/ status response = 429 \/ status response = 400 ->
  ok response = false.
Proof. unfold ok. intros [-> | [-> | ->]]; reflexivity. Qed.

End Transport.

(** ** Token lifecycle *)

Section Lifecycle.

Variable K : Constants.
Variable config : Config.
Variable net : Network.

(** Up to the call of [setTokens], [refreshTokens] is its [request]. *)
Lemma run_refreshTokens w tokens :
  storage w = Some tokens ->
  run net (refreshTokens K config) w =
  match run net (request config (refresh (ENDPOINTS K))
                   {| method := Some "POST"; headers := None;
                      body := Some (RefreshTokenGrant (refreshToken tokens) (clientId config)
                                      (clientSecret config)) |}) (log GetTokens w) with
  | (Resolved response, w') =>
      let newTokens := refreshed tokens response (clock w') in
      (Resolved newTokens, set_storage (Some newTokens) (log (SetTokens newTokens) w'))
  | (Rejected e, w') => (Rejected e, w')
  end.
Proof.
  intros Hs. unfold refreshTokens. rewrite run_bind. cbn [run call perform]. rewrite Hs.
  cbv iota beta. rewrite run_bind.
  destruct (run net (request _ _ _) _) as [[response|e] w']; reflexivity.
Qed.

(** A refresh that fails has not written to the store. *)
Lemma refreshTokens_rejected_frame w e w' :
  run net (refreshTokens K config) w = (Rejected e, w') ->
  storage w' = storage w /\ store_writes (trace w') = store_writes (trace w).
Proof.
  destruct (storage w) as [tokens|] eqn:Hs.
  - rewrite (run_refreshTokens w tokens Hs).
    pose proof (run_request_world config net (refresh (ENDPOINTS K))
                  {| method := Some "POST"; headers := None;
                     body := Some (RefreshTokenGrant (refreshToken tokens) (clientId config)
                                     (clientSecret config)) |} (log GetTokens w)) as Hw.
    destruct (run net (request _ _ _) _) as [[response|e'] w1]; [discriminate|].
    intros [= <- <-]. simpl in Hw. subst w1. split; [exact Hs | reflexivity].
  - unfold refreshTokens. cbn. rewrite Hs. cbn. intros [= <- <-]. split; [exact Hs | reflexivity].
Qed.

(** C6. When the stored record expires more than the refresh buffer after
    the instant of the call, [getAccessToken] resolves to the access token
    of that record; it sends no request and the store holds what it held:
    the call only reads the store. *)
Theorem getAccessToken_fresh w tokens :
  storage w = Some tokens ->
  TOKEN_REFRESH_BUFFER K < expiresAt tokens - clock w ->
  exists w',
    run net (getAccessToken K config) w = (Resolved (Some (accessToken tokens)), w')
    /\ requests (trace w') = requests (trace w)
    /\ storage w' = storage w
    /\ store_writes (trace w') = store_writes (trace w).
Proof.
  intros Hs Hfresh. exists (log GetTokens w). split; [|done].
  unfold getAccessToken. cbn [mbind prog_bind bind call run perform]. rewrite Hs.
  cbn [bind run perform clock log].
  destruct (Z.geb_spec (clock w) (expiresAt tokens - TOKEN_REFRESH_BUFFER K)); [lia|].
  reflexivity.
Qed.

(** C7, as amended.  When the store holds no record, [getAccessToken] does
    not fail: it resolves to [null], after reading the store and nothing
    else.  The "Not authenticated" failure is raised by
    [authenticatedRequest], which rejects with an invalid-token error
    without sending its request. *)
Theorem getAccessToken_unauthenticated w :
  storage w = None ->
  run net (getAccessToken K config) w = (Resolved None, log GetTokens w)
  /\ forall endpoint options,
       run net (authenticatedRequest K config endpoint options) w
       = (Rejected (Sdk (InvalidTokenError (Some "Not authenticated"))), log GetTokens w).
Proof.
  intros Hs.
  assert (Hget : run net (getAccessToken K config) w = (Resolved None, log GetTokens w)).
  { unfold getAccessToken. cbn [mbind prog_bind bind call run perform]. rewrite Hs. reflexivity. }
  split; [exact Hget|]. intros endpoint options.
  unfold authenticatedRequest. rewrite run_bind, Hget. reflexivity.
Qed.


(** C3, as amended.  After a successful refresh the store holds the new
    record, whose refresh token is the one of the response when the response
    has a non-empty one, and the one of the previous record when the
    response has none or an empty one. *)
Theorem refreshTokens_refresh_token w tokens response j :
  storage w = Some tokens ->
  answer (net (sent w) (refresh_request K config tokens)) = inr response ->
  ok response = true ->
  payload response = Some j ->
  exists newTokens w',
    run net (refreshTokens K config) w = (Resolved newTokens, w')
    /\ storage w' = Some newTokens
    /\ accessToken newTokens = Wire.access_token j
    /\ (forall s, Wire.refresh_token j = Some s -> s <> "" -> refreshToken newTokens = s)
    /\ (Wire.refresh_token j = None \/ Wire.refresh_token j = Some "" ->
        refreshToken newTokens = refreshToken tokens).
Proof.
  intros Hs Ha Hok Hj.
  pose proof (run_request_ok config net (refresh (ENDPOINTS K))
                {| method := Some "POST"; headers := None;
                   body := Some (RefreshTokenGrant (refreshToken tokens) (clientId config)
                                   (clientSecret config)) |} (log GetTokens w) response j
                Ha Hok Hj) as Hrq.
  eexists. eexists. rewrite (run_refreshTokens w tokens Hs), Hrq.
  split; [reflexivity|]. split; [reflexivity|]. split; [reflexivity|].
  unfold refreshed. cbn [refreshToken]. split.
  - intros s -> Hne. destruct s; [congruence | reflexivity].
  - intros [-> | ->]; reflexivity.
Qed.

(** C8. When the stored record is stale and the refresh fails (or is not
    attempted, auto-refresh being off), [isAuthenticated] resolves to
    [false]: the failure of the refresh does not reach the caller. *)
Theorem isAuthenticated_refresh_fails w tokens :
  storage w = Some tokens ->
  stale K tokens (clock w) ->
  (autoRefresh config = true ->
   exists e w1, run net (refreshTokens K config) (log GetTokens w) = (Rejected e, w1)) ->
  exists w', run net (isAuthenticated K config) w = (Resolved false, w').
Proof.
  intros Hs Hstale Hfail. unfold stale in Hstale.
  unfold isAuthenticated. cbn [mbind prog_bind bind call run perform]. rewrite Hs.
  cbn [bind run perform clock log].
  destruct (Z.geb_spec (clock w) (expiresAt tokens - TOKEN_REFRESH_BUFFER K)); [|lia].
  destruct (autoRefresh config); [|eexists; reflexivity].
  destruct Hfail as (e & w1 & Hr); [reflexivity|].
  rewrite run_try_catch.
  change (refreshTokens K config;; Ret true) with (refreshTokens K config ≫= fun _ => Ret true).
  rewrite run_bind, Hr. eexists. reflexivity.
Qed.

(** X17. A stale record with auto-refresh off: the call rejects with the
    token-expired error instead of handing out the stale token, after
    reading the store and nothing else. *)
Lemma getAccessToken_stale_no_refresh w tokens :
  storage w = Some tokens ->
  stale K tokens (clock w) ->
  autoRefresh config = false ->
  run net (getAccessToken K config) w = (Rejected (Sdk TokenExpiredError), log GetTokens w).
Proof.
  intros Hs Hstale Hoff. unfold stale in Hstale.
  unfold getAccessToken. cbn [mbind prog_bind bind call run perform]. rewrite Hs.
  cbn [bind run perform clock log].
  destruct (Z.geb_spec (clock w) (expiresAt tokens - TOKEN_REFRESH_BUFFER K)); [|lia].
  rewrite Hoff. reflexivity.
Qed.

(** A stale record with auto-refresh on: a call running alone sends one
    refresh request and resolves to the new access token. *)
Lemma getAccessToken_stale_refreshes w tokens response j :
  storage w = Some tokens ->
  stale K tokens (clock w) ->
  autoRefresh config = true ->
  answer (net (sent w) (refresh_request K config tokens)) = inr response ->
  ok response = true ->
  payload response = Some j ->
  exists w',
    run net (getAccessToken K config) w = (Resolved (Some (Wire.access_token j)), w')
    /\ requests (trace w') = refresh_request K config tokens :: requests (trace w).
Proof.
  intros Hs Hstale Hon Ha Hok Hj. unfold stale in Hstale.
  pose proof (run_request_ok config net (refresh (ENDPOINTS K))
                {| method := Some "POST"; headers := None;
                   body := Some (RefreshTokenGrant (refreshToken tokens) (clientId config)
                                   (clientSecret config)) |}
                (log GetTokens (log GetTokens w)) response j Ha Hok Hj) as Hrq.
  unfold getAccessToken. cbn [mbind prog_bind bind call run perform]. rewrite Hs.
  cbn [bind run perform clock log].
  destruct (Z.geb_spec (clock w) (expiresAt tokens - TOKEN_REFRESH_BUFFER K)); [|lia].
  rewrite Hon.
  change (bind (refreshTokens K config) ?f) with (refreshTokens K config ≫= f).
  rewrite run_bind, (run_refreshTokens (log GetTokens w) tokens Hs), Hrq.
  eexists. split; reflexivity.
Qed.

(** X18. Whatever the state, [isAuthenticated] resolves: nothing it awaits
    inside its [try] can make it reject. *)
Lemma isAuthenticated_resolves w :
  exists b w', run net (isAuthenticated K config) w = (Resolved b, w').
Proof.
  unfold isAuthenticated. cbn [mbind prog_bind bind call run perform].
  destruct (storage w) as [tokens|]; [|do 2 eexists; reflexivity].
  cbn [bind run perform clock log].
  destruct (clock w >=? _); [|do 2 eexists; reflexivity].
  destruct (autoRefresh config); [|do 2 eexists; reflexivity].
  rewrite run_try_catch.
  change (refreshTokens K config;; Ret true) with (refreshTokens K config ≫= fun _ => Ret true).
  rewrite run_bind.
  destruct (run net (refreshTokens K config) _) as [[nt|e] w1]; do 2 eexists; reflexivity.
Qed.

End Lifecycle.

(** ** The orchestrator: callback, logout, sync manager *)

Section Orchestrator.

Variable K : Constants.
Variable config : Config.
Variable toISOString : Z -> string.
Variable net : Network.

Lemma handleCallback_no_verifier w code state :
  verifiers w !! state = None ->
  run net (handleCallback K config code state) w
  = (Rejected (Sdk (ValidationError "Invalid state parameter - possible CSRF attack" None)), w).
Proof.
  intros Hv. unfold handleCallback, retrieveCodeVerifier.
  cbn [mbind prog_bind bind call run perform]. rewrite Hv. reflexivity.
Qed.

(** C4. For a state under which no code verifier is stored,
    [handleCallback] rejects with the validation error and leaves the world
    as it was: no request has been sent and the token store is untouched. *)
Theorem handleCallback_unknown_state w code state :
  verifiers w !! state = None ->
  run net (handleCallback K config code state) w
  = (Rejected (Sdk (ValidationError "Invalid state parameter - possible CSRF attack" None)), w).
Proof.
  intros Hv. unfold handleCallback.
  assert (Hnone : run net (retrieveCodeVerifier state) w = (Resolved None, w)).
  { unfold retrieveCodeVerifier. cbn [mbind prog_bind bind call run perform].
    rewrite Hv. reflexivity. }
  rewrite run_bind, Hnone. reflexivity.
Qed.

(** Storing the verifier of one state gives no verifier to another. *)
Lemma storeCodeVerifier_other w verifier state state' :
  state <> state' ->
  verifiers (run net (storeCodeVerifier verifier state) w).2 !! state'
  = verifiers w !! state'.
Proof. intros Hne. cbn. apply lookup_insert_ne, Hne. Qed.

(** [handleTokenResponse] does not touch the verifiers. *)
Lemma handleTokenResponse_verifiers response w :
  verifiers (run net (handleTokenResponse response) w).2 = verifiers w.
Proof. unfold handleTokenResponse. cbn. destruct (Wire.user response); reflexivity. Qed.

(** A callback consumes the verifier of its state, whether the exchange
    succeeds or not, so a second callback with that state is one with no
    stored verifier. *)
Lemma handleCallback_consumes w code state :
  verifiers (run net (handleCallback K config code state) w).2 !! state = None.
Proof.
  unfold handleCallback, retrieveCodeVerifier.
  cbn [mbind prog_bind bind call run perform].
  destruct (verifiers w !! state) as [[|c r]|] eqn:Hv; cbn [bind run perform].
  - apply lookup_delete_eq.
  - rewrite run_bind.
    pose proof (run_request_world config net (token (ENDPOINTS K))
      {| method := Some "POST"; headers := None;
         body := Some (AuthorizationCodeGrant code (redirectUri config) (clientId config)
                         (clientSecret config) (String c r)) |}
      (set_verifiers (delete state (verifiers w)) w)) as Hw.
    destruct (run net (request _ _ _) _) as [[response|e] w1]; simpl in Hw; subst w1.
    + rewrite handleTokenResponse_verifiers. apply lookup_delete_eq.
    + apply lookup_delete_eq.
  - exact Hv.
Qed.

(** X5. A second callback with a state fails like one with a forged state,
    whatever the first did, and changes nothing. *)
Lemma handleCallback_replayed w code code' state :
  let w1 := (run net (handleCallback K config code state) w).2 in
  run net (handleCallback K config code' state) w1
  = (Rejected (Sdk (ValidationError "Invalid state parameter - possible CSRF attack" None)), w1).
Proof. intros w1. apply handleCallback_no_verifier, handleCallback_consumes. Qed.

(** What [flush] sends is what is pending, and the queue is empty while the
    write is under way; a failed write puts the data back. *)
Lemma run_flush (callback : SyncData -> prog unit) w m :
  syncManager w = Some m ->
  run net (flush callback) w =
  if hasPendingData m then
    match run net (callback (pending m)) (set_syncManager (Some (clear m)) w) with
    | (Resolved _, w') => (Resolved Synced, w')
    | (Rejected e, w') =>
        (Rejected e, set_syncManager (restore (pending m) <$> syncManager w') w')
    end
  else (Resolved NothingToSync, w).
Proof.
  intros Hm. unfold flush. rewrite run_bind. cbn [run call perform]. rewrite Hm. cbv iota beta.
  destruct (hasPendingData m); [|reflexivity].
  rewrite run_bind. cbn [run call perform]. cbv iota beta.
  rewrite run_try_catch, run_bind.
  destruct (run net (callback (pending m)) _) as [[[]|e] w']; reflexivity.
Qed.

(** C5. [logout] always resolves, and when it has the token store is
    empty, no user profile is cached and the sync manager, if there is one,
    has nothing pending and no timer.  The network is arbitrary: this holds
    when the flush of the pending data and the revoke request both fail. *)
Theorem logout_clears w :
  exists w',
    run net (logout K config toISOString) w = (Resolved tt, w')
    /\ storage w' = None
    /\ currentUser w' = None
    /\ (forall m, syncManager w' = Some m ->
          pending m = ∅ /\ timer m = None /\ hasPendingData m = false).
Proof.
  unfold logout. rewrite run_bind. cbn [run call perform]. cbv iota beta.
  rewrite run_bind.
  assert (exists w1,
    run net (if default false (hasPendingData <$> syncManager w)
             then try_catch (flush (sync_callback K config toISOString);; Ret tt)
                    (fun _ => Ret tt)
             else Ret tt) w = (Resolved tt, w1)) as [w1 ->].
  { destruct (default false _); [rewrite run_swallow|]; eexists; reflexivity. }
  rewrite run_bind. cbn [run call perform]. cbv iota beta.
  rewrite run_bind.
  assert (exists w2,
    run net (match storage w1 with
             | Some tokens =>
                 try_catch
                   (request config (revoke (ENDPOINTS K))
                      {| method := Some "POST"; headers := None;
                         body := Some (RevokeBody (accessToken tokens) (clientId config)) |};;
                    Ret tt)
                   (fun _ => Ret tt)
             | None => Ret tt
             end) (log GetTokens w1) = (Resolved tt, w2)) as [w2 ->].
  { destruct (storage w1); [rewrite run_swallow|]; eexists; reflexivity. }
  cbn. eexists. split; [reflexivity|]. split; [reflexivity|]. split; [reflexivity|].
  destruct (syncManager w2) as [m0|]; cbn; intros m [= <-]. done.
Qed.

(** Once the client holds a sync manager, [getSyncManager] hands out that
    object and changes nothing, whatever its argument. *)
Lemma getSyncManager_existing w m d :
  syncManager w = Some m ->
  run net (getSyncManager d) w = (Resolved m, w).
Proof. intros Hm. unfold getSyncManager. cbn. rewrite Hm. reflexivity. Qed.



End Orchestrator.

(** ** The debounced sync queue *)

Lemma queue_lookup now c d m c' :
  pending (queue now c d m) !! c'
  = if decide (c = c') then Some (shallow_merge (default ∅ (pending m !! c)) d)
    else pending m !! c'.
Proof. unfold queue. cbn [pending]. apply lookup_insert. Qed.

(** The value of field [f] of category [c] in what is pending. *)
Lemma queue_field now c d m c' f :
  pending (queue now c d m) !! c' ≫= (.!! f)
  = if decide (c = c') then
      match d !! f with
      | Some v => Some v
      | None => pending m !! c' ≫= (.!! f)
      end
    else pending m !! c' ≫= (.!! f).
Proof.
  rewrite queue_lookup. case_decide as Hc; [subst c'|reflexivity].
  cbn. unfold shallow_merge. rewrite lookup_union.
  destruct (d !! f) as [v|]; [by destruct (default ∅ (pending m !! c) !! f)|].
  rewrite (left_id_L None _). destruct (pending m !! c); [reflexivity|apply lookup_empty].
Qed.

Lemma queue_all_field calls m c f :
  pending (queue_all calls m) !! c ≫= (.!! f)
  = match last_write c f calls with
    | Some v => Some v
    | None => pending m !! c ≫= (.!! f)
    end.
Proof.
  revert m. induction calls as [|q r IH]; intros m; [reflexivity|].
  cbn [queue_all foldl last_write].
  fold (queue_all r (queue (at_time q) (category q) (partial q) m)).
  rewrite IH, queue_field.
  destruct (last_write c f r); [reflexivity|].
  case_decide; [|reflexivity]. destruct (partial q !! f); reflexivity.
Qed.

Lemma queue_all_category calls m c :
  is_Some (pending (queue_all calls m) !! c)
  <-> c ∈ (category <$> calls) \/ is_Some (pending m !! c).
Proof.
  revert m. induction calls as [|q r IH]; intros m.
  - cbn. rewrite elem_of_nil. tauto.
  - cbn [queue_all foldl]. fold (queue_all r (queue (at_time q) (category q) (partial q) m)).
    rewrite IH, queue_lookup, fmap_cons, elem_of_cons.
    case_decide as Hc.
    + subst c. split; [auto|]. intros _. right. eauto.
    + split; [intros [?|?]; auto|]. intros [[?|?]|?]; [congruence|auto..].
Qed.

(** What is pending for one category depends on the calls made for that
    category only. *)
Lemma queue_all_calls_for calls m m' c :
  pending m !! c = pending m' !! c ->
  pending (queue_all calls m) !! c = pending (queue_all (calls_for c calls) m') !! c.
Proof.
  revert m m'. induction calls as [|q r IH]; intros m m' Hm; [exact Hm|].
  cbn [queue_all foldl]. fold (queue_all r (queue (at_time q) (category q) (partial q) m)).
  unfold calls_for. rewrite filter_cons. fold (calls_for c r). case_decide as Hc.
  - cbn [queue_all foldl].
    fold (queue_all (calls_for c r) (queue (at_time q) (category q) (partial q) m')).
    apply IH. rewrite !queue_lookup, Hc. case_decide; [|done]. by rewrite Hm.
  - apply IH. rewrite queue_lookup. case_decide; [congruence|exact Hm].
Qed.

(** C9.  Starting from an empty queue, after any sequence of [queue] calls
    with no flush in between, what is pending (the payload of the next
    flush) has an entry exactly for the categories queued, and the entry of
    a category gives to each field the value of the latest call for that
    category that wrote the field; two sequences that make the same calls
    for every category, interleaved in any way, leave the same payload. *)
Theorem queue_merges_last_write_wins calls m :
  pending m = ∅ ->
  (forall c f, pending (queue_all calls m) !! c ≫= (.!! f) = last_write c f calls)
  /\ (forall c, is_Some (pending (queue_all calls m) !! c) <-> c ∈ (category <$> calls))
  /\ (forall calls',
        (forall c, calls_for c calls' = calls_for c calls) ->
        pending (queue_all calls' m) = pending (queue_all calls m)).
Proof.
  intros Hempty. split; [|split].
  - intros c f. rewrite queue_all_field, Hempty, lookup_empty.
    destruct (last_write c f calls); reflexivity.
  - intros c. rewrite queue_all_category, Hempty, lookup_empty.
    split; [intros [?|[? ?]]; [done|discriminate]|auto].
  - intros calls' Hsame. apply map_eq. intros c.
    rewrite (queue_all_calls_for calls' m m c eq_refl), (queue_all_calls_for calls m m c eq_refl).
    by rewrite Hsame.
Qed.

(** ** Calls in flight together *)

(** A round is the interleaving that resumes every call once, in order. *)
Lemma round_interleave net {A} (pool : list (task A)) w :
  round net pool w = interleave net (seq 0 (length pool)) pool w.
Proof.
  enough (Hgen : forall pre : list (task A),
            interleave net (seq (length pre) (length pool)) (pre ++ pool) w
            = (pre ++ (round net pool w).1, (round net pool w).2)).
  { pose proof (Hgen []) as H0.
    change (interleave net (seq 0 (length pool)) pool w
            = ((round net pool w).1, (round net pool w).2)) in H0.
    rewrite H0. by destruct (round net pool w). }
  revert w. induction pool as [|t r IH]; intros w pre.
  - cbn. by rewrite app_nil_r.
  - cbn [length seq round]. unfold interleave. cbn [foldl].
    rewrite list_lookup_middle by reflexivity.
    destruct (step net t w) as [t' w'] eqn:Hstep.
    assert (<[length pre := t']> (pre ++ t :: r) = (pre ++ [t']) ++ r) as ->.
    { rewrite <- (Nat.add_0_r (length pre)), insert_app_r. cbn. by rewrite <- app_assoc. }
    specialize (IH w' (pre ++ [t'])). rewrite length_app in IH. cbn [length] in IH.
    rewrite Nat.add_1_r in IH. unfold interleave in IH. rewrite IH.
    destruct (round net r w') as [r' w'']. cbn. by rewrite <- app_assoc.
Qed.

Section Concurrent.

Variable K : Constants.
Variable config : Config.
Variable net : Network.
Variable tokens : TokenData.
Variable responses : nat -> Wire.t.






End Concurrent.

(** ** The properties at concrete inputs *)

Lemma getAccessToken_fresh_witness :
  exists w',
    run network_down (getAccessToken sample_constants sample_config)
      (world_at 0 (Some sample_record))
    = (Resolved (Some "a0"), w')
    /\ requests (trace w') = []
    /\ storage w' = Some sample_record
    /\ store_writes (trace w') = [].
Proof.
  apply (getAccessToken_fresh sample_constants sample_config network_down
           (world_at 0 (Some sample_record)) sample_record);
    [reflexivity | vm_compute; reflexivity].
Defined.

(** With an empty store [getAccessToken] does not reject: the claim that
    it fails does not hold of this call. *)
Lemma getAccessToken_unauthenticated_does_not_fail :
  storage (world_at 0 None) = None
  /\ ~ exists e w',
         run network_down (getAccessToken sample_constants sample_config) (world_at 0 None)
         = (Rejected e, w').
Proof.
  split; [reflexivity|]. intros (e & w' & H). vm_compute in H. discriminate H.
Qed.

Lemma getAccessToken_unauthenticated_witness :
  run network_down (getAccessToken sample_constants sample_config) (world_at 0 None)
  = (Resolved None, log GetTokens (world_at 0 None))
  /\ forall endpoint options,
       run network_down (authenticatedRequest sample_constants sample_config endpoint options)
         (world_at 0 None)
       = (Rejected (Sdk (InvalidTokenError (Some "Not authenticated"))),
          log GetTokens (world_at 0 None)).
Proof.
  apply (getAccessToken_unauthenticated sample_constants sample_config network_down
           (world_at 0 None)).
  reflexivity.
Defined.



(** The server supplies the refresh token [""]; the record stored after the
    refresh has the previous refresh token, "r0", not the supplied one. *)
Lemma refreshTokens_empty_refresh_token_not_stored :
  let j := token_response "a1" (Some "") in
  exists newTokens w',
    run (answering 200 j) (refreshTokens sample_constants sample_config)
      (world_at 0 (Some sample_record))
    = (Resolved newTokens, w')
    /\ storage w' = Some newTokens
    /\ Wire.refresh_token j = Some ""
    /\ refreshToken newTokens = "r0"
    /\ refreshToken newTokens <> "".
Proof.
  intros j. do 2 eexists.
  split; [vm_compute; reflexivity|]. split; [reflexivity|]. split; [reflexivity|].
  split; [reflexivity | discriminate].
Qed.

Lemma refreshTokens_refresh_token_witness :
  exists newTokens w',
    run (answering 200 (token_response "a1" (Some "r1")))
      (refreshTokens sample_constants sample_config) (world_at 0 (Some sample_record))
    = (Resolved newTokens, w')
    /\ storage w' = Some newTokens
    /\ accessToken newTokens = "a1"
    /\ (forall s, Some "r1" = Some s -> s <> "" -> refreshToken newTokens = s)
    /\ (Some "r1" = None \/ Some "r1" = Some "" -> refreshToken newTokens = "r0").
Proof.
  eapply (refreshTokens_refresh_token sample_constants sample_config
            (answering 200 (token_response "a1" (Some "r1")))
            (world_at 0 (Some sample_record)) sample_record _
            (token_response "a1" (Some "r1")));
    reflexivity.
Defined.

Lemma isAuthenticated_refresh_fails_witness :
  exists w',
    run network_down (isAuthenticated sample_constants sample_config)
      (world_at 3600000 (Some sample_record))
    = (Resolved false, w').
Proof.
  apply (isAuthenticated_refresh_fails sample_constants sample_config network_down
           (world_at 3600000 (Some sample_record)) sample_record).
  - reflexivity.
  - unfold stale. simpl. lia.
  - intros _. do 2 eexists. vm_compute. reflexivity.
Defined.

Lemma handleCallback_unknown_state_witness :
  run (answering 200 (token_response "a1" (Some "r1")))
    (handleCallback sample_constants sample_config "code" "forged") (world_at 0 None)
  = (Rejected (Sdk (ValidationError "Invalid state parameter - possible CSRF attack" None)),
     world_at 0 None).
Proof.
  apply (handleCallback_unknown_state sample_constants sample_config
           (answering 200 (token_response "a1" (Some "r1"))) (world_at 0 None)
           "code" "forged").
  reflexivity.
Defined.

(** Offline, with data pending and a record stored: the flush and the
    revoke request are both attempted and both fail, and [logout] resolves
    with everything cleared. *)
Lemma logout_offline :
  exists w',
    run network_down (logout sample_constants sample_config pretty) signed_in_with_pending
    = (Resolved tt, w')
    /\ length (requests (trace w')) = 2%nat
    /\ in_flight (trace w') = 0
    /\ storage w' = None
    /\ currentUser w' = None
    /\ syncManager w' = Some sample_manager.
Proof. eexists. split; [vm_compute; reflexivity|]. repeat split. Qed.


(** With a fresh record and data pending, [flush] sends one request, whose
    [platform_data] is what was pending, and leaves the queue empty. *)
Lemma flush_sends_pending :
  exists w',
    run (answering 200 Wire.empty) (flush (sync_callback sample_constants sample_config pretty))
      signed_in_with_pending
    = (Resolved Synced, w')
    /\ rq_body <$> requests (trace w')
       = [Some (SyncBody merge
                  {[ "farm_stats" := {[ "gold" := VNum 150; "wood" := VNum 5 ]} ]}
                  None "2000")]
    /\ syncManager w' = Some sample_manager.
Proof. eexists. split; [vm_compute; reflexivity|]. split; vm_compute; reflexivity. Qed.

(** The scenario of the spec: [{gold: 100}] then [{gold: 150, wood: 5}]
    under one category leaves [{gold: 150, wood: 5}] for that category. *)
Lemma queue_gold_wood :
  pending (queue_all sample_calls sample_manager)
  = {[ "farm_stats" := {[ "gold" := VNum 150; "wood" := VNum 5 ]} ]}.
Proof. vm_compute. reflexivity. Qed.

Lemma queue_merges_last_write_wins_witness :
  (forall c f,
     pending (queue_all sample_calls sample_manager) !! c ≫= (.!! f)
     = last_write c f sample_calls)
  /\ (forall c, is_Some (pending (queue_all sample_calls sample_manager) !! c)
                <-> c ∈ (category <$> sample_calls))
  /\ (forall calls',
        (forall c, calls_for c calls' = calls_for c sample_calls) ->
        pending (queue_all calls' sample_manager)
        = pending (queue_all sample_calls sample_manager)).
Proof.
  apply (queue_merges_last_write_wins sample_calls sample_manager). reflexivity.
Defined.



(** The same two calls one after the other, the second called when the
    first has settled: the second finds the record the first has stored,
    sends nothing and resolves to the same access token. *)
Lemma consecutive_calls_refresh_once :
  exists w',
    interleave rotating [0; 0; 0; 0; 0; 0; 1; 1]%nat two_calls
      (world_at 3600000 (Some sample_record))
    = ([Done (Resolved (Some "a1")); Done (Resolved (Some "a1"))], w')
    /\ requests (trace w') = [refresh_request sample_constants sample_config sample_record].
Proof. eexists. split; vm_compute; reflexivity. Qed.

(** * Further properties of client.ts *)

(** ** [generateState] *)

Lemma string_app_empty_r s : s +:+ "" = s.
Proof.
  induction s as [|c s IH]; [reflexivity|].
  change (String c (s +:+ "") = String c s). by rewrite IH.
Qed.

Lemma join_empty_cons s r : join "" (s :: r) = s +:+ join "" r.
Proof. destruct r as [|s' r]; [|reflexivity]. cbn [join]. by rewrite string_app_empty_r. Qed.

(** Each byte gives two hexadecimal digits, which give the byte back. *)
Lemma generateState_cons x array :
  exists c1 c2,
    generateState (x :: array) = String c1 (String c2 (generateState array))
    /\ is_hex c1 = true /\ is_hex c2 = true
    /\ (unhex c1 ≫= fun d1 => unhex c2 ≫= fun d2 => Byte.of_N (16 * d1 + d2)) = Some x.
Proof.
  unfold generateState. rewrite fmap_cons, join_empty_cons.
  destruct x; do 2 eexists; (split; [reflexivity|]); repeat split.
Qed.

(** X1. A state made from [n] random bytes has [2 n] characters, all of them
    decimal digits or letters from [a] to [f]. *)
Theorem generateState_hex array :
  String.length (generateState array) = (2 * length array)%nat
  /\ all_hex (generateState array) = true.
Proof.
  induction array as [|x array [IHl IHh]]; [split; reflexivity|].
  destruct (generateState_cons x array) as (c1 & c2 & -> & H1 & H2 & _).
  cbn [String.length all_hex length]. rewrite IHl, IHh, H1, H2. split; [lia|reflexivity].
Qed.

Lemma parse_generateState array : parse_state (generateState array) = Some array.
Proof.
  induction array as [|x a IH]; [reflexivity|].
  destruct (generateState_cons x a) as (c1 & c2 & -> & _ & _ & Hx).
  cbn [parse_state]. rewrite IH.
  destruct (unhex c1) as [d1|]; [|discriminate]. cbn in Hx |- *.
  destruct (unhex c2) as [d2|]; [|discriminate]. cbn in Hx |- *.
  rewrite Hx. reflexivity.
Qed.

Lemma generateState_inj array array' :
  generateState array = generateState array' -> array = array'.
Proof.
  intros Heq. pose proof (parse_generateState array) as H1.
  rewrite Heq, parse_generateState in H1. congruence.
Qed.

(** X2. The state can be read back into the bytes it was made from, so two
    different draws never give the same state. *)
Theorem generateState_decodes array :
  parse_state (generateState array) = Some array
  /\ forall array', generateState array = generateState array' -> array = array'.
Proof. split; [apply parse_generateState | apply generateState_inj]. Qed.

(** ** What the methods may do *)

Lemma only_bind P {A B} (p : prog A) (f : A -> prog B) :
  only P p -> (forall a, only P (f a)) -> only P (p ≫= f).
Proof.
  intros Hp Hf. unfold mbind, prog_bind.
  induction Hp as [a|e|X o k Ho Hk IH]; cbn; [apply Hf|constructor|].
  constructor; [exact Ho|exact IH].
Qed.

Lemma only_try_catch P {A} (p : prog A) (h : Exn -> prog A) :
  only P p -> (forall e, only P (h e)) -> only P (try_catch p h).
Proof.
  intros Hp Hh. induction Hp as [a|e|X o k Ho Hk IH]; cbn; [constructor|apply Hh|].
  constructor; [exact Ho|exact IH].
Qed.

Lemma only_call P {X} (o : op X) : P X o -> only P (call o).
Proof. intros Ho. constructor; [exact Ho|]. intros x. constructor. Qed.

Lemma only_weaken (P Q : forall X, op X -> Prop) {A} (p : prog A) :
  (forall X (o : op X), P X o -> Q X o) -> only P p -> only Q p.
Proof. intros HPQ Hp. induction Hp; constructor; auto. Qed.

(** An invariant of the world that every permitted effect keeps is kept by
    the whole call. *)
Lemma run_only net P (Inv : World -> Prop) {A} (p : prog A) w :
  (forall X (o : op X) w0, P X o -> Inv w0 -> Inv (perform net o w0).2) ->
  only P p -> Inv w -> Inv (run net p w).2.
Proof.
  intros Hstep Hp. revert w.
  induction Hp as [a|e|X o k Ho Hk IH]; intros w Hw; cbn; try exact Hw.
  destruct (perform net o w) as [x w'] eqn:Hperf. apply IH.
  specialize (Hstep X o w Ho Hw). rewrite Hperf in Hstep. exact Hstep.
Qed.

Ltac only_step :=
  lazymatch goal with
  | |- only _ (Ret _) => apply only_Ret
  | |- only _ (Throw _) => apply only_Throw
  | |- only _ (call _) => apply only_call; exact Logic.I
  | |- only _ (_ ≫= _) => apply only_bind; [|intros]
  | |- only _ (try_catch _ _) => apply only_try_catch; [|intros]
  | |- only _ (match ?x with _ => _ end) => destruct x
  end.

Section Effects.

Variable K : Constants.
Variable config : Config.
Variable toISOString : Z -> string.

Lemma request_token_effect endpoint options :
  only token_effect (request config endpoint options).
Proof. unfold request, fetch, handleError, json. repeat only_step. Qed.

Lemma refreshTokens_token_effect : only token_effect (refreshTokens K config).
Proof. unfold refreshTokens. repeat first [apply request_token_effect | only_step]. Qed.

Lemma getAccessToken_token_effect : only token_effect (getAccessToken K config).
Proof. unfold getAccessToken. repeat first [apply refreshTokens_token_effect | only_step]. Qed.

Lemma isAuthenticated_token_effect : only token_effect (isAuthenticated K config).
Proof. unfold isAuthenticated. repeat first [apply refreshTokens_token_effect | only_step]. Qed.

Lemma authenticatedRequest_token_effect endpoint options :
  only token_effect (authenticatedRequest K config endpoint options).
Proof.
  unfold authenticatedRequest.
  repeat first [apply getAccessToken_token_effect | apply request_token_effect | only_step].
Qed.

Lemma syncData_token_effect options :
  only token_effect (syncData K config toISOString options).
Proof.
  unfold syncData. repeat first [apply authenticatedRequest_token_effect | only_step].
Qed.

End Effects.

(** ** The transport, continued *)

Section TransportErrors.

Variable config : Config.
Variable net : Network.


(** X8. Every error [request] rejects with is one of the SDK's errors: what
    [fetch] or [json()] throw is wrapped. *)
Theorem request_rejects_with_sdk_error endpoint options w e w' :
  run net (request config endpoint options) w = (Rejected e, w') ->
  exists e', e = Sdk e'.
Proof.
  unfold request. rewrite run_try_catch.
  destruct (run net _ w) as [[j|[e0|m]] w1]; cbn; intros [= <- <-]; eauto.
Qed.

(** X9. When [fetch] rejects, [request] rejects with a network error that
    carries the message of the failure. *)
Theorem request_network_failure endpoint options w m :
  answer (net (sent w) (request_of config endpoint options)) = inl (Native m) ->
  run net (request config endpoint options) w
  = (Rejected (Sdk (NetworkError m)), after_fetch net (request_of config endpoint options) w).
Proof.
  intros Ha. unfold request. fold (request_of config endpoint options).
  rewrite run_try_catch, run_bind, run_fetch, Ha. reflexivity.
Qed.

(** X10. A 2xx answer whose body is not JSON makes [request] reject with a
    network error. *)
Theorem request_malformed_body endpoint options w response :
  answer (net (sent w) (request_of config endpoint options)) = inr response ->
  ok response = true ->
  payload response = None ->
  exists m,
    run net (request config endpoint options) w
    = (Rejected (Sdk (NetworkError m)), after_fetch net (request_of config endpoint options) w).
Proof.
  intros Ha Hok Hp. unfold request. fold (request_of config endpoint options).
  rewrite run_try_catch, run_bind, run_fetch, Ha, run_bind, Hok. simpl negb. cbv iota.
  change (run net (Ret tt) ?w) with (Resolved tt, w). cbv iota beta.
  rewrite run_json, Hp. eexists. reflexivity.
Qed.

(** X11. Status 429 gives a rate-limit error with the [Retry-After] header
    parsed as an integer, 60 when the header is absent or empty.  The
    integer of the header is taken to be a safe one, so that the double of
    the source is that integer. *)
Theorem request_rate_limited endpoint options w response :
  answer (net (sent w) (request_of config endpoint options)) = inr response ->
  status response = 429 ->
  (forall n, parseInt (or_string (retry_after response) "60") = Some n -> safe_integer n) ->
  exists retryAfter,
    run net (request config endpoint options) w
    = (Rejected (Sdk (RateLimitError retryAfter)),
       after_fetch net (request_of config endpoint options) w)
    /\ retryAfter = parseInt (or_string (retry_after response) "60")
    /\ (retry_after response = None \/ retry_after response = Some "" ->
        retryAfter = Some 60).
Proof.
  intros Ha Hs _. eexists. split; [|split; [reflexivity|]].
  - rewrite (run_request_not_ok config net _ _ _ response Ha) by (apply not_ok_of_status; auto).
    unfold thrown_for. rewrite Hs. reflexivity.
  - intros [-> | ->]; reflexivity.
Qed.

(** X12. When an error answer does not announce a JSON content type its
    body is not read: 401 gives an invalid-token error without message, 400
    the message "Validation failed", and a status other than 401, 429 and
    400 the code "unknown_error" with "Request failed with status N". *)
Theorem request_error_body_unread endpoint options w response :
  answer (net (sent w) (request_of config endpoint options)) = inr response ->
  ok response = false ->
  default false (includes "application/json" <$> content_type response) = false ->
  let thrown e :=
    run net (request config endpoint options) w
    = (Rejected (Sdk e), after_fetch net (request_of config endpoint options) w) in
  (status response = 401 -> thrown (InvalidTokenError None))
  /\ (status response = 400 -> thrown (ValidationError "Validation failed" None))
  /\ (status response <> 401 -> status response <> 429 -> status response <> 400 ->
      thrown (BaseError "unknown_error"
                ("Request failed with status " +:+ pretty (status response)) None)).
Proof.
  intros Ha Hok Hct thrown. subst thrown. cbv beta.
  rewrite (run_request_not_ok config net _ _ _ response Ha Hok).
  unfold thrown_for, error_data. rewrite Hct. split; [|split].
  - intros ->. reflexivity.
  - intros ->. reflexivity.
  - intros H1 H2 H3.
    repeat match goal with |- context [match ?x with _ => _ end] => destruct x end;
      first [reflexivity | congruence].
Qed.


End TransportErrors.

(** ** Token lifecycle, continued *)

Section LifecycleMore.

Variable K : Constants.
Variable config : Config.
Variable toISOString : Z -> string.
Variable net : Network.

(** X14. However [refreshTokens] fails, the store holds what it held and
    has not been written to.  Over an empty store it fails with "No tokens
    available" before any request is sent; over a record, the one request
    it sends is the refresh request for that record. *)
Theorem refreshTokens_failure_keeps_record w e w' :
  run net (refreshTokens K config) w = (Rejected e, w') ->
  storage w' = storage w
  /\ store_writes (trace w') = store_writes (trace w)
  /\ (storage w = None ->
      e = Sdk (InvalidTokenError (Some "No tokens available"))
      /\ requests (trace w') = requests (trace w))
  /\ (forall tokens, storage w = Some tokens ->
      requests (trace w') = refresh_request K config tokens :: requests (trace w)).
Proof.
  intros Hrun.
  destruct (refreshTokens_rejected_frame K config net w e w' Hrun) as [H1 H2].
  split; [exact H1|]. split; [exact H2|]. split.
  - intros Hs. unfold refreshTokens in Hrun. cbn in Hrun. rewrite Hs in Hrun. cbn in Hrun.
    injection Hrun as <- <-. split; reflexivity.
  - intros tokens Hs. rewrite (run_refreshTokens K config net w tokens Hs) in Hrun.
    pose proof (run_request_world config net (refresh (ENDPOINTS K))
                  {| method := Some "POST"; headers := None;
                     body := Some (RefreshTokenGrant (refreshToken tokens) (clientId config)
                                     (clientSecret config)) |} (log GetTokens w)) as Hw.
    destruct (run net (request _ _ _) _) as [[response|e0] w1]; [discriminate|].
    injection Hrun as <- <-. simpl in Hw. subst w1. reflexivity.
Qed.

(** X15. A successful refresh sends one request and writes the store once;
    the new record expires [expires_in] seconds after the instant the answer
    arrived, and has the scopes of the response, or the previous scopes when
    the response has none.  The instant, the lifetime in milliseconds and
    their sum are taken to be safe integers, so that the sum of the source,
    a double, is the sum of the integers. *)
Theorem refreshTokens_new_record w tokens response j :
  storage w = Some tokens ->
  answer (net (sent w) (refresh_request K config tokens)) = inr response ->
  ok response = true ->
  payload response = Some j ->
  safe_integer (clock w + latency (net (sent w) (refresh_request K config tokens))) ->
  safe_integer (Wire.expires_in j * 1000) ->
  safe_integer (clock w + latency (net (sent w) (refresh_request K config tokens))
                + Wire.expires_in j * 1000) ->
  exists newTokens w',
    run net (refreshTokens K config) w = (Resolved newTokens, w')
    /\ storage w' = Some newTokens
    /\ expiresAt newTokens
       = clock w + latency (net (sent w) (refresh_request K config tokens))
         + Wire.expires_in j * 1000
    /\ (Wire.scope j = None -> scope newTokens = scope tokens)
    /\ (forall s, Wire.scope j = Some s -> scope newTokens = split " " s)
    /\ requests (trace w') = refresh_request K config tokens :: requests (trace w)
    /\ store_writes (trace w') = SetTokens newTokens :: store_writes (trace w).
Proof.
  intros Hs Ha Hok Hj _ _ _.
  pose proof (run_request_ok config net (refresh (ENDPOINTS K))
                {| method := Some "POST"; headers := None;
                   body := Some (RefreshTokenGrant (refreshToken tokens) (clientId config)
                                   (clientSecret config)) |} (log GetTokens w) response j
                Ha Hok Hj) as Hrq.
  do 2 eexists. rewrite (run_refreshTokens K config net w tokens Hs), Hrq.
  split; [reflexivity|]. split; [reflexivity|]. split; [reflexivity|].
  unfold refreshed. cbn [scope]. split; [intros ->; reflexivity|].
  split; [intros s ->; reflexivity|]. split; reflexivity.
Qed.

(** X16. When [getAccessToken] resolves over a stale record, auto-refresh
    is on, one request has been sent, the refresh request for that record,
    and the token returned is that of the record now stored, not that of
    the record the call found. *)
Theorem getAccessToken_resolved_over_stale_record w tokens r w' :
  storage w = Some tokens ->
  stale K tokens (clock w) ->
  run net (getAccessToken K config) w = (Resolved r, w') ->
  autoRefresh config = true
  /\ exists newTokens,
       r = Some (accessToken newTokens)
       /\ storage w' = Some newTokens
       /\ requests (trace w') = refresh_request K config tokens :: requests (trace w).
Proof.
  intros Hs Hstale. unfold stale in Hstale.
  unfold getAccessToken. cbn [mbind prog_bind bind call run perform]. rewrite Hs.
  cbn [bind run perform clock log].
  destruct (Z.geb_spec (clock w) (expiresAt tokens - TOKEN_REFRESH_BUFFER K)); [|lia].
  destruct (autoRefresh config); [|discriminate].
  change (bind (refreshTokens K config) ?f) with (refreshTokens K config ≫= f).
  rewrite run_bind, (run_refreshTokens K config net (log GetTokens w) tokens Hs).
  pose proof (run_request_world config net (refresh (ENDPOINTS K))
                {| method := Some "POST"; headers := None;
                   body := Some (RefreshTokenGrant (refreshToken tokens) (clientId config)
                                   (clientSecret config)) |}
                (log GetTokens (log GetTokens w))) as Hw.
  destruct (run net (request _ _ _) _) as [[response|e] w1]; [|discriminate].
  simpl in Hw. subst w1. cbn. intros [= <- <-]. split; [reflexivity|].
  eexists (refreshed tokens response _). split; [reflexivity|]. split; reflexivity.
Qed.

(** X19. When [isAuthenticated] says [true] the store holds a record, and
    when it says [false] the store holds what it held and has not been
    written to. *)
Theorem isAuthenticated_outcome w b w' :
  run net (isAuthenticated K config) w = (Resolved b, w') ->
  (b = true -> is_Some (storage w'))
  /\ (b = false -> storage w' = storage w
                   /\ store_writes (trace w') = store_writes (trace w)).
Proof.
  unfold isAuthenticated. cbn [mbind prog_bind bind call run perform].
  destruct (storage w) as [tokens|] eqn:Hs.
  2:{ cbn. intros [= <- <-]. split; [discriminate|]. intros _. split; [exact Hs|reflexivity]. }
  cbn [bind run perform clock log].
  destruct (clock w >=? _).
  2:{ cbn. intros [= <- <-]. split; [intros _; cbn; rewrite Hs; eauto | discriminate]. }
  destruct (autoRefresh config).
  2:{ cbn. intros [= <- <-]. split; [discriminate|]. intros _. split; [exact Hs|reflexivity]. }
  rewrite run_try_catch.
  change (refreshTokens K config;; Ret true) with (refreshTokens K config ≫= fun _ => Ret true).
  rewrite run_bind.
  destruct (run net (refreshTokens K config) (log GetTokens w)) as [[nt|e] w1] eqn:Hr.
  - cbn. intros [= <- <-]. split; [intros _|discriminate].
    rewrite (run_refreshTokens K config net (log GetTokens w) tokens Hs) in Hr.
    destruct (run net (request _ _ _) _) as [[response|e] w2]; [|discriminate].
    injection Hr as <- <-. cbn. eauto.
  - cbn. intros [= <- <-]. split; [discriminate|]. intros _.
    destruct (refreshTokens_rejected_frame K config net _ _ _ Hr) as [H1 H2].
    split; [rewrite H1; exact Hs | rewrite H2; reflexivity].
Qed.

(** What the token methods leave alone. *)
Lemma token_effect_frame {A} (p : prog A) w :
  only token_effect p ->
  let w' := (run net p w).2 in
  currentUser w' = currentUser w
  /\ syncManager w' = syncManager w
  /\ constructed w' = constructed w
  /\ verifiers w' = verifiers w
  /\ (is_Some (storage w) -> is_Some (storage w')).
Proof.
  intros Hp.
  apply (run_only net token_effect
           (fun w0 => currentUser w0 = currentUser w /\ syncManager w0 = syncManager w
                      /\ constructed w0 = constructed w /\ verifiers w0 = verifiers w
                      /\ (is_Some (storage w) -> is_Some (storage w0))) p w); [|exact Hp|done].
  intros X o w0 Ho (H1 & H2 & H3 & H4 & H5).
  destruct o; try (exfalso; exact Ho); cbn; repeat split; auto.
Qed.

(** X20. [getAccessToken], [refreshTokens], [isAuthenticated], [getTokens]
    and [syncData] never change the cached user, the sync manager or the
    verifiers, and never remove a stored record. *)
Theorem token_methods_leave_client_fields w :
  let kept (w' : World) :=
    currentUser w' = currentUser w
    /\ syncManager w' = syncManager w
    /\ constructed w' = constructed w
    /\ verifiers w' = verifiers w
    /\ (is_Some (storage w) -> is_Some (storage w')) in
  kept (run net (getAccessToken K config) w).2
  /\ kept (run net (refreshTokens K config) w).2
  /\ kept (run net (isAuthenticated K config) w).2
  /\ kept (run net getTokens w).2
  /\ forall options, kept (run net (syncData K config toISOString options) w).2.
Proof.
  intros kept. subst kept. cbv beta.
  split; [apply token_effect_frame, getAccessToken_token_effect|].
  split; [apply token_effect_frame, refreshTokens_token_effect|].
  split; [apply token_effect_frame, isAuthenticated_token_effect|].
  split; [apply token_effect_frame; unfold getTokens; only_step|].
  intros options. apply token_effect_frame, syncData_token_effect.
Qed.

End LifecycleMore.

(** ** Requests made with the access token *)

Lemma split_cons sep s : exists h t, split sep s = h :: t.
Proof.
  induction s as [|c s (h & t & IH)]; [by eexists _, _|].
  cbn. destruct (Ascii.eqb c sep); [by eexists _, _|]. rewrite IH. by eexists _, _.
Qed.

Lemma join_cons_char sep c h t : join sep (String c h :: t) = String c (join sep (h :: t)).
Proof. destruct t; reflexivity. Qed.

(** Splitting at the spaces and joining with spaces gives the string back. *)
Lemma join_split s : join " " (split " " s) = s.
Proof.
  induction s as [|c s IH]; [reflexivity|]. cbn [split].
  destruct (Ascii.eqb_spec c " ") as [->|Hc].
  - destruct (split_cons " " s) as (h & t & Hs). rewrite Hs in IH |- *.
    change (join " " ("" :: h :: t)) with ("" +:+ " " +:+ join " " (h :: t)).
    rewrite IH. reflexivity.
  - destruct (split_cons " " s) as (h & t & Hs). rewrite Hs in IH |- *.
    rewrite join_cons_char, IH. reflexivity.
Qed.

Section Authenticated.

Variable K : Constants.
Variable config : Config.
Variable toISOString : Z -> string.
Variable net : Network.

(** Over a fresh record with a non-empty access token,
    [authenticatedRequest] is its [request], made with the bearer header. *)
Lemma run_authenticatedRequest_fresh endpoint options w tokens c r :
  storage w = Some tokens ->
  TOKEN_REFRESH_BUFFER K < expiresAt tokens - clock w ->
  accessToken tokens = String c r ->
  run net (authenticatedRequest K config endpoint options) w
  = run net (request config endpoint (with_bearer (accessToken tokens) options))
      (log GetTokens w).
Proof.
  intros Hs Hfresh Htok. unfold authenticatedRequest. rewrite run_bind.
  assert (run net (getAccessToken K config) w
          = (Resolved (Some (accessToken tokens)), log GetTokens w)) as ->.
  { unfold getAccessToken. cbn [mbind prog_bind bind call run perform]. rewrite Hs.
    cbn [bind run perform clock log].
    destruct (Z.geb_spec (clock w) (expiresAt tokens - TOKEN_REFRESH_BUFFER K)); [lia|].
    reflexivity. }
  rewrite Htok. reflexivity.
Qed.


(** X23. A fresh record whose access token is the empty string counts as
    not authenticated: [authenticatedRequest] rejects after reading the
    store, without sending a request. *)
Theorem authenticatedRequest_empty_token endpoint options w tokens :
  storage w = Some tokens ->
  TOKEN_REFRESH_BUFFER K < expiresAt tokens - clock w ->
  accessToken tokens = "" ->
  run net (authenticatedRequest K config endpoint options) w
  = (Rejected (Sdk (InvalidTokenError (Some "Not authenticated"))), log GetTokens w).
Proof.
  intros Hs Hfresh Htok. unfold authenticatedRequest. rewrite run_bind.
  assert (run net (getAccessToken K config) w
          = (Resolved (Some (accessToken tokens)), log GetTokens w)) as ->.
  { unfold getAccessToken. cbn [mbind prog_bind bind call run perform]. rewrite Hs.
    cbn [bind run perform clock log].
    destruct (Z.geb_spec (clock w) (expiresAt tokens - TOKEN_REFRESH_BUFFER K)); [lia|].
    reflexivity. }
  rewrite Htok. reflexivity.
Qed.


End Authenticated.

(** ** Sign-in, profile and sign-out *)

Section SignIn.

Variable K : Constants.
Variable config : Config.
Variable toISOString : Z -> string.
Variable generateCodeChallenge : string -> string.
Variable toString : list (string * string) -> string.
Variable net : Network.

(** [handleTokenResponse] stores the record of the response and sends
    nothing. *)
Lemma run_handleTokenResponse_stores response w :
  exists result w',
    run net (handleTokenResponse response) w = (Resolved result, w')
    /\ (accessToken <$> storage w') = Some (Wire.access_token response)
    /\ AuthResult.accessToken result = Wire.access_token response
    /\ requests (trace w') = requests (trace w).
Proof.
  unfold handleTokenResponse, transformAuthResult.
  destruct (Wire.user response) as [u|]; cbn;
    do 2 eexists; (split; [reflexivity|]); cbn; repeat split.
Qed.

(** X6. Given a token response, [handleTokenResponse] sends no request and
    writes the store once, with a record that has the access token of the
    response, its refresh token when it has one, and its scope string split
    at the spaces (one empty scope without a scope string); with safe
    integers the record expires [expires_in] seconds after the instant of
    the call.  It caches the user of the response and otherwise keeps the
    cached one.  Its result reports that user, the access token and the
    scope string of the response, which the split and the join leave
    unchanged. *)
Theorem handleTokenResponse_result response w :
  exists result tokens w',
    run net (handleTokenResponse response) w = (Resolved result, w')
    /\ storage w' = Some tokens
    /\ store_writes (trace w') = SetTokens tokens :: store_writes (trace w)
    /\ requests (trace w') = requests (trace w)
    /\ accessToken tokens = Wire.access_token response
    /\ (forall s, Wire.refresh_token response = Some s -> refreshToken tokens = s)
    /\ scope tokens = split " " (or_string (Wire.scope response) "")
    /\ (safe_integer (clock w) -> safe_integer (Wire.expires_in response * 1000) ->
        safe_integer (clock w + Wire.expires_in response * 1000) ->
        expiresAt tokens = clock w + Wire.expires_in response * 1000)
    /\ currentUser w'
       = match Wire.user response with
         | Some u => Some (transformUser u)
         | None => currentUser w
         end
    /\ AuthResult.user result = currentUser w'
    /\ AuthResult.accessToken result = Wire.access_token response
    /\ AuthResult.scope result = or_string (Wire.scope response) ""
    /\ AuthResult.isNewUser result = Wire.is_new_user response.
Proof.
  unfold handleTokenResponse, transformAuthResult.
  destruct (Wire.user response) as [u|]; cbn;
    do 3 eexists; (split; [reflexivity|]); cbn;
    repeat split; try apply join_split; by intros s ->.
Qed.

Lemma getUser_effects : only keeps_record (getUser K config).
Proof.
  unfold getUser.
  repeat first [ apply (only_weaken token_effect keeps_record);
                 [by intros X []|apply authenticatedRequest_token_effect]
               | only_step ].
Qed.

(** X25. Over a fresh record with a non-empty access token, a [getUser]
    whose request is answered with a user returns the transformed user and
    caches it: [getCachedUser] then returns it without any effect.  The
    token store is left alone. *)
Theorem getUser_caches w tokens response j u :
  storage w = Some tokens ->
  TOKEN_REFRESH_BUFFER K < expiresAt tokens - clock w ->
  accessToken tokens <> "" ->
  answer (net (sent w) (request_of config (verify (ENDPOINTS K))
                          (with_bearer (accessToken tokens)
                             {| method := Some "GET"; headers := None; body := None |})))
  = inr response ->
  ok response = true ->
  payload response = Some j ->
  Wire.user j = Some u ->
  exists w',
    run net (getUser K config) w = (Resolved (transformUser u), w')
    /\ run net getCachedUser w' = (Resolved (Some (transformUser u)), w')
    /\ storage w' = storage w.
Proof.
  intros Hs Hfresh Hne Ha Hok Hj Hu.
  assert (exists c r, accessToken tokens = String c r) as (c & r & Htok).
  { destruct (accessToken tokens); [done|eauto]. }
  unfold getUser. rewrite run_bind.
  rewrite (run_authenticatedRequest_fresh K config net _ _ w tokens c r Hs Hfresh Htok).
  rewrite (run_request_ok config net _ _ (log GetTokens w) response j Ha Hok Hj).
  rewrite Hu. eexists. split; [reflexivity|]. split; reflexivity.
Qed.

(** X26. When the verify answer carries no user, [getUser] rejects with an
    error that is not one of the SDK's, and the cached user is unchanged. *)
Theorem getUser_without_user w tokens response j :
  storage w = Some tokens ->
  TOKEN_REFRESH_BUFFER K < expiresAt tokens - clock w ->
  accessToken tokens <> "" ->
  answer (net (sent w) (request_of config (verify (ENDPOINTS K))
                          (with_bearer (accessToken tokens)
                             {| method := Some "GET"; headers := None; body := None |})))
  = inr response ->
  ok response = true ->
  payload response = Some j ->
  Wire.user j = None ->
  exists message w',
    run net (getUser K config) w = (Rejected (Native message), w')
    /\ currentUser w' = currentUser w.
Proof.
  intros Hs Hfresh Hne Ha Hok Hj Hu.
  assert (exists c r, accessToken tokens = String c r) as (c & r & Htok).
  { destruct (accessToken tokens); [done|eauto]. }
  unfold getUser. rewrite run_bind.
  rewrite (run_authenticatedRequest_fresh K config net _ _ w tokens c r Hs Hfresh Htok).
  rewrite (run_request_ok config net _ _ (log GetTokens w) response j Ha Hok Hj).
  rewrite Hu. do 2 eexists. split; reflexivity.
Qed.

(** [startAuth] returns the authorization URL and keeps the verifier under
    the state; it does nothing else. *)
Lemma run_startAuth array codeVerifier prompt w :
  run net (startAuth K config generateCodeChallenge toString array codeVerifier prompt) w
  = (Resolved (baseUrl config +:+ authorize (ENDPOINTS K) +:+ "?"
               +:+ toString (authorization_params config (generateState array)
                               (generateCodeChallenge codeVerifier) prompt)),
     set_verifiers (<[generateState array := codeVerifier]> (verifiers w)) w).
Proof. reflexivity. Qed.

(** X3. [startAuth] sends nothing and leaves the token store alone; the
    callback that comes back with its state exchanges the code together with
    the verifier [startAuth] kept, stores the record of the answer and uses
    the verifier up. *)
Theorem startAuth_then_handleCallback array codeVerifier prompt code w response j :
  codeVerifier <> "" ->
  answer (net (sent w) (token_request K config code codeVerifier)) = inr response ->
  ok response = true ->
  payload response = Some j ->
  let state := generateState array in
  let w1 := (run net (startAuth K config generateCodeChallenge toString array codeVerifier
                        prompt) w).2 in
  requests (trace w1) = requests (trace w)
  /\ storage w1 = storage w
  /\ exists result w2,
       run net (handleCallback K config code state) w1 = (Resolved result, w2)
       /\ requests (trace w2) = token_request K config code codeVerifier :: requests (trace w)
       /\ (accessToken <$> storage w2) = Some (Wire.access_token j)
       /\ AuthResult.accessToken result = Wire.access_token j
       /\ verifiers w2 !! state = None.
Proof.
  intros Hne Ha Hok Hj state w1. subst w1. rewrite run_startAuth. cbn [snd].
  split; [reflexivity|]. split; [reflexivity|].
  assert (exists c r, codeVerifier = String c r) as (c & r & ->).
  { destruct codeVerifier; [done|eauto]. }
  unfold handleCallback, retrieveCodeVerifier.
  cbn [mbind prog_bind bind call run perform verifiers set_verifiers].
  rewrite lookup_insert_eq. cbn [bind run perform].
  change (bind (request ?c0 ?e ?o) ?f) with (request c0 e o ≫= f).
  rewrite run_bind.
  match goal with |- context [run net (request config ?e ?o) ?w0] =>
    rewrite (run_request_ok config net e o w0 response j Ha Hok Hj)
  end.
  match goal with |- context [run net (handleTokenResponse j) ?w0] =>
    destruct (run_handleTokenResponse_stores j w0) as (result & w2 & Hrun & Hst & Hacc & Hrq);
    pose proof (handleTokenResponse_verifiers net j w0) as Hv
  end.
  rewrite Hrun in Hv |- *. cbn [snd] in Hv. exists result, w2.
  split; [reflexivity|]. split; [rewrite Hrq; reflexivity|].
  split; [exact Hst|]. split; [exact Hacc|].
  rewrite Hv. cbn. apply lookup_delete_eq.
Qed.

(** X4. Two authorizations started from different random draws are both
    pending afterwards, each state with its own verifier. *)
Theorem startAuth_twice_keeps_both array1 verifier1 prompt1 array2 verifier2 prompt2 w :
  array1 <> array2 ->
  let start a v p := startAuth K config generateCodeChallenge toString a v p in
  let w2 := (run net (start array2 verifier2 prompt2)
               (run net (start array1 verifier1 prompt1) w).2).2 in
  verifiers w2 !! generateState array1 = Some verifier1
  /\ verifiers w2 !! generateState array2 = Some verifier2.
Proof.
  intros Hne start w2. subst start w2. rewrite !run_startAuth. cbn.
  split; [|apply lookup_insert_eq].
  rewrite lookup_insert_ne; [apply lookup_insert_eq|].
  intros Heq. apply Hne. symmetry. exact (generateState_inj _ _ Heq).
Qed.

End SignIn.

Section SignOut.

Variable K : Constants.
Variable config : Config.
Variable toISOString : Z -> string.
Variable generateCodeChallenge : string -> string.
Variable toString : list (string * string) -> string.
Variable net : Network.

(** A call that never calls [clearTokens] leaves a record in a store that
    held one. *)
Lemma keeps_record_frame {A} (p : prog A) w :
  only keeps_record p -> is_Some (storage w) -> is_Some (storage (run net p w).2).
Proof.
  intros Hp. apply (run_only net keeps_record (fun w0 => is_Some (storage w0))); [|exact Hp].
  intros X o w0 Ho Hw0. destruct o; try (exfalso; exact Ho); cbn; eauto.
Qed.

Lemma token_effect_keeps_record {A} (p : prog A) :
  only token_effect p -> only keeps_record p.
Proof. apply only_weaken. by intros X []. Qed.

Lemma handleCallback_effects code state : only keeps_record (handleCallback K config code state).
Proof.
  unfold handleCallback, retrieveCodeVerifier, handleTokenResponse, transformAuthResult.
  repeat first [ apply token_effect_keeps_record, request_token_effect | only_step ].
Qed.

(** X21. No method but [logout] empties the token store: after any other
    call a store that held a record holds one. *)
Theorem only_logout_empties_the_store w :
  is_Some (storage w) ->
  let kept {A} (p : prog A) := is_Some (storage (run net p w).2) in
  kept (getAccessToken K config)
  /\ kept (refreshTokens K config)
  /\ kept (isAuthenticated K config)
  /\ kept (getUser K config)
  /\ (forall options, kept (syncData K config toISOString options))
  /\ (forall code state, kept (handleCallback K config code state))
  /\ (forall array codeVerifier prompt,
        kept (startAuth K config generateCodeChallenge toString array codeVerifier prompt))
  /\ (forall debounceMs, kept (getSyncManager debounceMs)).
Proof.
  intros Hs kept. subst kept. cbv beta.
  repeat split; intros; (apply keeps_record_frame; [|exact Hs]).
  - apply token_effect_keeps_record, getAccessToken_token_effect.
  - apply token_effect_keeps_record, refreshTokens_token_effect.
  - apply token_effect_keeps_record, isAuthenticated_token_effect.
  - apply getUser_effects.
  - apply token_effect_keeps_record, syncData_token_effect.
  - apply handleCallback_effects.
  - unfold startAuth, storeCodeVerifier. repeat only_step.
  - unfold getSyncManager. repeat only_step.
Qed.

(** The world [logout] ends in: the three final assignments, made in a
    world [w2] in which the flush and the revoke request are over. *)
Lemma run_logout w :
  exists w1 w2,
    run net (logout K config toISOString) w
    = (Resolved tt,
       set_syncManager (clear <$> syncManager w2)
         (set_currentUser None (set_storage None (log ClearTokens w2))))
    /\ w1 = (run net (if default false (hasPendingData <$> syncManager w)
                      then try_catch (flush (sync_callback K config toISOString);; Ret tt)
                             (fun _ => Ret tt)
                      else Ret tt) w).2
    /\ w2 = match storage w1 with
            | Some tokens =>
                after_fetch net (revoke_request K config tokens) (log GetTokens w1)
            | None => log GetTokens w1
            end.
Proof.
  unfold logout. rewrite run_bind. cbn [run call perform]. cbv iota beta.
  rewrite run_bind.
  match goal with |- context [run net (if ?c then ?a else ?b) w] =>
    set (p1 := if c then a else b)
  end.
  assert (Hp1 : run net p1 w = (Resolved tt, (run net p1 w).2)).
  { subst p1. destruct (default false _); [rewrite run_swallow|]; reflexivity. }
  rewrite Hp1. exists (run net p1 w).2. set (w1 := (run net p1 w).2).
  rewrite run_bind. cbn [run call perform]. cbv iota beta. rewrite run_bind.
  match goal with |- context [run net ?p (log GetTokens w1)] =>
    assert (Hp2 : run net p (log GetTokens w1)
                  = (Resolved tt,
                     match storage w1 with
                     | Some tokens =>
                         after_fetch net (revoke_request K config tokens) (log GetTokens w1)
                     | None => log GetTokens w1
                     end))
  end.
  { destruct (storage w1) as [tokens|]; [|reflexivity].
    rewrite run_swallow.
    change (request ?c ?e ?o;; Ret tt) with (request c e o ≫= fun _ => Ret tt).
    rewrite run_bind.
    pose proof (run_request_world config net (revoke (ENDPOINTS K))
                  {| method := Some "POST"; headers := None;
                     body := Some (RevokeBody (accessToken tokens) (clientId config)) |}
                  (log GetTokens w1)) as Hw.
    destruct (run net (request _ _ _) _) as [[j|e] w2]; simpl in Hw; subst w2; reflexivity. }
  rewrite Hp2.
  exists (match storage w1 with
          | Some tokens =>
              after_fetch net (revoke_request K config tokens) (log GetTokens w1)
          | None => log GetTokens w1
          end).
  split; [reflexivity|]. split; reflexivity.
Qed.

(** X27. With nothing pending, [logout] over a stored record sends one
    request: a POST to the revoke endpoint with the stored access token and
    the client id in the body, and no [Authorization] header. *)
Theorem logout_revokes_stored_token w tokens :
  default false (hasPendingData <$> syncManager w) = false ->
  storage w = Some tokens ->
  exists rq,
    requests (trace (run net (logout K config toISOString) w).2) = rq :: requests (trace w)
    /\ rq_url rq = baseUrl config +:+ revoke (ENDPOINTS K)
    /\ rq_method rq = "POST"
    /\ rq_body rq = Some (RevokeBody (accessToken tokens) (clientId config))
    /\ rq_headers rq !! "Authorization" = None.
Proof.
  intros Hpend Hs. destruct (run_logout w) as (w1 & w2 & -> & H1 & H2).
  rewrite Hpend in H1. cbn in H1. subst w1. rewrite Hs in H2. subst w2.
  eexists. split; [reflexivity|]. split; [reflexivity|]. split; [reflexivity|].
  split; [reflexivity|]. cbn. rewrite lookup_union_r by apply lookup_empty.
  by apply lookup_singleton_ne.
Qed.

(** X28. With nothing pending and nothing stored, [logout] sends no request. *)
Theorem logout_signed_out_sends_nothing w :
  default false (hasPendingData <$> syncManager w) = false ->
  storage w = None ->
  requests (trace (run net (logout K config toISOString) w).2) = requests (trace w).
Proof.
  intros Hpend Hs. destruct (run_logout w) as (w1 & w2 & -> & H1 & H2).
  rewrite Hpend in H1. cbn in H1. subst w1. rewrite Hs in H2. subst w2. reflexivity.
Qed.

(** X29. A second [logout] right after a first sends no request and leaves
    the client signed out, with the same sync manager. *)
Theorem logout_twice w :
  let w' := (run net (logout K config toISOString) w).2 in
  let w'' := (run net (logout K config toISOString) w').2 in
  requests (trace w'') = requests (trace w')
  /\ storage w'' = None /\ currentUser w'' = None /\ syncManager w'' = syncManager w'.
Proof.
  intros w' w''. subst w' w''.
  destruct (run_logout w) as (w1 & w2 & -> & _ & _). cbn [snd].
  match goal with |- context [run net _ ?w0] =>
    destruct (run_logout w0) as (w3 & w4 & -> & H3 & H4)
  end.
  cbn [snd].
  assert (Hnp : default false (hasPendingData <$> (clear <$> syncManager w2)) = false).
  { destruct (syncManager w2); reflexivity. }
  cbn [syncManager set_syncManager] in H3. rewrite Hnp in H3. cbn in H3. subst w3.
  cbn in H4. subst w4. cbn. repeat split. by destruct (syncManager w2).
Qed.

(** X30. [logout] keeps the sync manager, emptied: the same object with the
    same interval is what [getSyncManager] hands out afterwards, whatever its
    argument, and no manager is constructed. *)
Theorem logout_keeps_manager w :
  let w' := (run net (logout K config toISOString) w).2 in
  syncManager w' = clear <$> syncManager w
  /\ constructed w' = constructed w
  /\ forall m debounceMs,
       syncManager w = Some m ->
       run net (getSyncManager debounceMs) w' = (Resolved (clear m), w').
Proof.
  intros w'.
  assert (Hm : syncManager w' = clear <$> syncManager w /\ constructed w' = constructed w).
  { subst w'. destruct (run_logout w) as (w1 & w2 & -> & H1 & H2). cbn [snd].
    assert (H1' : clear <$> syncManager w1 = clear <$> syncManager w
                  /\ constructed w1 = constructed w).
    { subst w1. destruct (default false (hasPendingData <$> syncManager w)) eqn:Hd; [|done].
      destruct (syncManager w) as [m|] eqn:Hmgr; [|discriminate Hd].
      cbn in Hd. rename Hd into Hp.
      rewrite run_swallow.
      change (flush ?cb;; Ret tt) with (flush cb ≫= fun _ => Ret tt). rewrite run_bind.
      rewrite (run_flush net _ w m Hmgr), Hp.
      pose proof (token_effect_frame net
                    (sync_callback K config toISOString (pending m))
                    (set_syncManager (Some (clear m)) w)) as Hf.
      assert (only token_effect (sync_callback K config toISOString (pending m))) as Ho.
      { unfold sync_callback.
        repeat first [apply syncData_token_effect | only_step]. }
      destruct (Hf Ho) as (_ & Hmgr' & Hc' & _).
      destruct (run net (sync_callback _ _ _ _) _) as [[[]|e] w0]; cbn in Hmgr', Hc' |- *.
      - rewrite Hmgr'. done.
      - rewrite Hmgr'. done. }
    destruct H1' as [Hc1 Hk1].
    destruct (storage w1); subst w2; cbn; done. }
  split; [apply Hm|]. split; [apply Hm|].
  intros m d Hmgr. apply getSyncManager_existing. destruct Hm as [-> _]. by rewrite Hmgr.
Qed.

End SignOut.

(** ** The further properties at concrete inputs *)

Lemma request_rejects_with_sdk_error_witness :
  exists e', Sdk (NetworkError "Failed to fetch") = Sdk e'.
Proof.
  eapply (request_rejects_with_sdk_error sample_config network_down "/oauth/verify"
            no_options (world_at 0 None)).
  vm_compute. reflexivity.
Defined.

Lemma request_network_failure_witness :
  run network_down (request sample_config "/oauth/verify" no_options) (world_at 0 None)
  = (Rejected (Sdk (NetworkError "Failed to fetch")),
     after_fetch network_down (request_of sample_config "/oauth/verify" no_options)
       (world_at 0 None)).
Proof.
  apply (request_network_failure sample_config network_down "/oauth/verify" no_options
           (world_at 0 None) "Failed to fetch").
  reflexivity.
Defined.

Lemma request_malformed_body_witness :
  exists m,
    run (answering_with (error_page 200)) (request sample_config "/oauth/verify" no_options)
      (world_at 0 None)
    = (Rejected (Sdk (NetworkError m)),
       after_fetch (answering_with (error_page 200))
         (request_of sample_config "/oauth/verify" no_options) (world_at 0 None)).
Proof.
  apply (request_malformed_body sample_config (answering_with (error_page 200))
           "/oauth/verify" no_options (world_at 0 None) (error_page 200));
    reflexivity.
Defined.

Lemma request_rate_limited_witness :
  exists retryAfter,
    run (answering_with too_many_requests) (request sample_config "/sync" no_options)
      (world_at 0 None)
    = (Rejected (Sdk (RateLimitError retryAfter)),
       after_fetch (answering_with too_many_requests)
         (request_of sample_config "/sync" no_options) (world_at 0 None))
    /\ retryAfter = parseInt (or_string None "60")
    /\ (@None string = None \/ None = Some "" -> retryAfter = Some 60).
Proof.
  apply (request_rate_limited sample_config (answering_with too_many_requests) "/sync"
           no_options (world_at 0 None) too_many_requests).
  - reflexivity.
  - reflexivity.
  - intros n Hn. vm_compute in Hn. injection Hn as <-. unfold safe_integer. lia.
Defined.

Lemma request_error_body_unread_witness :
  let thrown e :=
    run (answering_with (error_page 502)) (request sample_config "/sync" no_options)
      (world_at 0 None)
    = (Rejected (Sdk e),
       after_fetch (answering_with (error_page 502))
         (request_of sample_config "/sync" no_options) (world_at 0 None)) in
  (502 = 401 -> thrown (InvalidTokenError None))
  /\ (502 = 400 -> thrown (ValidationError "Validation failed" None))
  /\ (502 <> 401 -> 502 <> 429 -> 502 <> 400 ->
      thrown (BaseError "unknown_error" ("Request failed with status " +:+ pretty 502) None)).
Proof.
  apply (request_error_body_unread sample_config (answering_with (error_page 502)) "/sync"
           no_options (world_at 0 None) (error_page 502));
    reflexivity.
Defined.


Lemma handleTokenResponse_result_witness :
  exists result tokens w',
    run network_down (handleTokenResponse (token_response "a1" (Some "r1")))
      (world_at 0 None)
    = (Resolved result, w')
    /\ storage w' = Some tokens
    /\ store_writes (trace w') = [SetTokens tokens]
    /\ requests (trace w') = []
    /\ accessToken tokens = "a1"
    /\ (forall s, Some "r1" = Some s -> refreshToken tokens = s)
    /\ scope tokens = split " " (or_string None "")
    /\ (safe_integer 0 -> safe_integer (3600 * 1000) -> safe_integer (0 + 3600 * 1000) ->
        expiresAt tokens = 0 + 3600 * 1000)
    /\ currentUser w' = None
    /\ AuthResult.user result = currentUser w'
    /\ AuthResult.accessToken result = "a1"
    /\ AuthResult.scope result = or_string None ""
    /\ AuthResult.isNewUser result = None.
Proof.
  apply (handleTokenResponse_result network_down (token_response "a1" (Some "r1"))
           (world_at 0 None)).
Defined.

Lemma refreshTokens_failure_keeps_record_witness :
  storage (after_fetch network_down
                (refresh_request sample_constants sample_config sample_record)
                (log GetTokens (world_at 0 (Some sample_record))))
     = Some sample_record
  /\ store_writes (trace (after_fetch network_down
                            (refresh_request sample_constants sample_config sample_record)
                            (log GetTokens (world_at 0 (Some sample_record)))))
     = []
  /\ (Some sample_record = None ->
      Sdk (NetworkError "Failed to fetch")
      = Sdk (InvalidTokenError (Some "No tokens available"))
      /\ requests (trace (after_fetch network_down
                            (refresh_request sample_constants sample_config sample_record)
                            (log GetTokens (world_at 0 (Some sample_record)))))
         = [])
  /\ (forall tokens, Some sample_record = Some tokens ->
      requests (trace (after_fetch network_down
                         (refresh_request sample_constants sample_config sample_record)
                         (log GetTokens (world_at 0 (Some sample_record)))))
      = [refresh_request sample_constants sample_config tokens]).
Proof.
  apply (refreshTokens_failure_keeps_record sample_constants sample_config network_down
           (world_at 0 (Some sample_record))).
  vm_compute. reflexivity.
Defined.

Lemma refreshTokens_new_record_witness :
  exists newTokens w',
    run (answering 200 (token_response "a1" None))
      (refreshTokens sample_constants sample_config) (world_at 0 (Some sample_record))
    = (Resolved newTokens, w')
    /\ storage w' = Some newTokens
    /\ expiresAt newTokens = 0 + 10 + 3600 * 1000
    /\ (@None string = None -> scope newTokens = ["profile"; "email"])
    /\ (forall s, None = Some s -> scope newTokens = split " " s)
    /\ requests (trace w')
       = [refresh_request sample_constants sample_config sample_record]
    /\ store_writes (trace w') = [SetTokens newTokens].
Proof.
  eapply (refreshTokens_new_record sample_constants sample_config
            (answering 200 (token_response "a1" None))
            (world_at 0 (Some sample_record)) sample_record _ (token_response "a1" None));
    first [reflexivity | unfold safe_integer; simpl; lia].
Defined.

Lemma getAccessToken_resolved_over_stale_record_witness :
  autoRefresh sample_config = true
  /\ exists newTokens,
       Some "a1" = Some (accessToken newTokens)
       /\ storage (run rotating (getAccessToken sample_constants sample_config)
                     (world_at 3600000 (Some sample_record))).2 = Some newTokens
       /\ requests (trace (run rotating (getAccessToken sample_constants sample_config)
                             (world_at 3600000 (Some sample_record))).2)
          = [refresh_request sample_constants sample_config sample_record].
Proof.
  apply (getAccessToken_resolved_over_stale_record sample_constants sample_config rotating
           (world_at 3600000 (Some sample_record)) sample_record).
  - reflexivity.
  - unfold stale. simpl. lia.
  - vm_compute. reflexivity.
Defined.

Lemma getAccessToken_stale_no_refresh_witness :
  run network_down
    (getAccessToken sample_constants
       (constructor sample_constants
          {| cfg_clientId := "fun_farm_production"; cfg_clientSecret := None;
             cfg_redirectUri := "https://farm.fun.rich/auth/callback";
             cfg_baseUrl := None; cfg_scopes := None; cfg_autoRefresh := Some false |}))
    (world_at 3600000 (Some sample_record))
  = (Rejected (Sdk TokenExpiredError), log GetTokens (world_at 3600000 (Some sample_record))).
Proof.
  apply (getAccessToken_stale_no_refresh sample_constants _ network_down
           (world_at 3600000 (Some sample_record)) sample_record).
  - reflexivity.
  - unfold stale. simpl. lia.
  - reflexivity.
Defined.

Lemma isAuthenticated_outcome_witness :
  (false = true ->
   is_Some (storage (run network_down (isAuthenticated sample_constants sample_config)
                       (world_at 3600000 (Some sample_record))).2))
  /\ (false = false ->
      storage (run network_down (isAuthenticated sample_constants sample_config)
                 (world_at 3600000 (Some sample_record))).2
      = Some sample_record
      /\ store_writes (trace (run network_down (isAuthenticated sample_constants sample_config)
                                (world_at 3600000 (Some sample_record))).2)
         = []).
Proof.
  apply (isAuthenticated_outcome sample_constants sample_config network_down
           (world_at 3600000 (Some sample_record))).
  vm_compute. reflexivity.
Defined.

Lemma only_logout_empties_the_store_witness :
  let w := world_at 3600000 (Some sample_record) in
  let kept {A} (p : prog A) := is_Some (storage (run network_down p w).2) in
  kept (getAccessToken sample_constants sample_config)
  /\ kept (refreshTokens sample_constants sample_config)
  /\ kept (isAuthenticated sample_constants sample_config)
  /\ kept (getUser sample_constants sample_config)
  /\ (forall options, kept (syncData sample_constants sample_config pretty options))
  /\ (forall code state, kept (handleCallback sample_constants sample_config code state))
  /\ (forall array codeVerifier prompt,
        kept (startAuth sample_constants sample_config id (fun _ => "") array codeVerifier
                prompt))
  /\ (forall debounceMs, kept (getSyncManager debounceMs)).
Proof.
  apply (only_logout_empties_the_store sample_constants sample_config pretty id
           (fun _ => "") network_down (world_at 3600000 (Some sample_record))).
  simpl. eauto.
Defined.


Lemma authenticatedRequest_empty_token_witness :
  run network_down (authenticatedRequest sample_constants sample_config "/sync" no_options)
    (world_at 0 (Some blank_record))
  = (Rejected (Sdk (InvalidTokenError (Some "Not authenticated"))),
     log GetTokens (world_at 0 (Some blank_record))).
Proof.
  apply (authenticatedRequest_empty_token sample_constants sample_config network_down
           "/sync" no_options (world_at 0 (Some blank_record)) blank_record).
  - reflexivity.
  - vm_compute. reflexivity.
  - reflexivity.
Defined.


Lemma getUser_caches_witness :
  exists w',
    run (answering 200 (verify_response (Some sample_wire_user)))
      (getUser sample_constants sample_config) (world_at 0 (Some sample_record))
    = (Resolved (transformUser sample_wire_user), w')
    /\ run (answering 200 (verify_response (Some sample_wire_user))) getCachedUser w'
       = (Resolved (Some (transformUser sample_wire_user)), w')
    /\ storage w' = Some sample_record.
Proof.
  eapply (getUser_caches sample_constants sample_config
            (answering 200 (verify_response (Some sample_wire_user)))
            (world_at 0 (Some sample_record)) sample_record _
            (verify_response (Some sample_wire_user)) sample_wire_user).
  - reflexivity.
  - vm_compute. reflexivity.
  - discriminate.
  - reflexivity.
  - reflexivity.
  - reflexivity.
  - reflexivity.
Defined.

Lemma getUser_without_user_witness :
  exists message w',
    run (answering 200 (verify_response None))
      (getUser sample_constants sample_config) (world_at 0 (Some sample_record))
    = (Rejected (Native message), w')
    /\ currentUser w' = None.
Proof.
  eapply (getUser_without_user sample_constants sample_config
            (answering 200 (verify_response None))
            (world_at 0 (Some sample_record)) sample_record _ (verify_response None)).
  - reflexivity.
  - vm_compute. reflexivity.
  - discriminate.
  - reflexivity.
  - reflexivity.
  - reflexivity.
  - reflexivity.
Defined.

Lemma startAuth_then_handleCallback_witness :
  let net := answering 200 (token_response "a1" (Some "r1")) in
  let state := generateState [Byte.x00; Byte.xff] in
  let w1 := (run net (startAuth sample_constants sample_config id (fun _ => "")
                        [Byte.x00; Byte.xff] "verifier" (Some login))
               (world_at 0 None)).2 in
  requests (trace w1) = []
  /\ storage w1 = None
  /\ exists result w2,
       run net (handleCallback sample_constants sample_config "code" state) w1
       = (Resolved result, w2)
       /\ requests (trace w2)
          = [token_request sample_constants sample_config "code" "verifier"]
       /\ (accessToken <$> storage w2) = Some "a1"
       /\ AuthResult.accessToken result = "a1"
       /\ verifiers w2 !! state = None.
Proof.
  eapply (startAuth_then_handleCallback sample_constants sample_config id (fun _ => "")
            (answering 200 (token_response "a1" (Some "r1")))
            [Byte.x00; Byte.xff] "verifier" (Some login) "code" (world_at 0 None) _
            (token_response "a1" (Some "r1")));
    first [discriminate | reflexivity].
Defined.

Lemma startAuth_twice_keeps_both_witness :
  let start a v p := startAuth sample_constants sample_config id (fun _ => "") a v p in
  let w2 := (run network_down (start [Byte.x01] "v2" None)
               (run network_down (start [Byte.x00] "v1" None) (world_at 0 None)).2).2 in
  verifiers w2 !! generateState [Byte.x00] = Some "v1"
  /\ verifiers w2 !! generateState [Byte.x01] = Some "v2".
Proof.
  apply (startAuth_twice_keeps_both sample_constants sample_config id (fun _ => "")
           network_down [Byte.x00] "v1" None [Byte.x01] "v2" None (world_at 0 None)).
  discriminate.
Defined.

Lemma logout_revokes_stored_token_witness :
  exists rq,
    requests (trace (run network_down (logout sample_constants sample_config pretty)
                       (world_at 0 (Some sample_record))).2)
    = rq :: []
    /\ rq_url rq = "https://fun.rich" +:+ "/oauth/revoke"
    /\ rq_method rq = "POST"
    /\ rq_body rq = Some (RevokeBody "a0" "fun_farm_production")
    /\ rq_headers rq !! "Authorization" = None.
Proof.
  apply (logout_revokes_stored_token sample_constants sample_config pretty network_down
           (world_at 0 (Some sample_record)) sample_record);
    reflexivity.
Defined.

Lemma logout_signed_out_sends_nothing_witness :
  requests (trace (run network_down (logout sample_constants sample_config pretty)
                     (world_at 0 None)).2)
  = [].
Proof.
  apply (logout_signed_out_sends_nothing sample_constants sample_config pretty network_down
           (world_at 0 None));
    reflexivity.
Defined.
